(** * Podologie Weimar: the service worker (sw.js)

    A shallow embedding of the caching service worker: the install,
    activate and fetch listeners, the cache-first and network-first
    strategies, the static-asset classifier and the dynamic-cache limiter.

    The browser side (CacheStorage, Cache, fetch, the console) is not part
    of the repository; it is modelled after the Service Worker / Cache API
    as far as the worker uses it:
    - a CacheStorage is the list of its named caches in creation order,
      a Cache is its request/response list in insertion order;
    - only GET requests are stored or matched, and two requests match when
      their URLs are equal (headers, Vary and URL fragments are left out);
    - a promise the worker awaits is run to completion on the spot; a
      promise the worker starts and does not await becomes a pending job
      that the event loop advances later, one platform call at a time. *)

From Stdlib Require Import String Ascii List NArith Arith Bool Lia.
Import ListNotations.
Local Open Scope string_scope.
Local Open Scope list_scope.
Local Open Scope nat_scope.

(** ** JavaScript string methods used by the worker *)

Module JSString.

(** [s.endsWith(suffix)] *)
Definition endsWith (s suffix : string) : bool :=
  let n := String.length s in
  let m := String.length suffix in
  (m <=? n) && String.eqb (substring (n - m) m s) suffix.

(** [s.includes(part)] *)
Fixpoint includes (s part : string) : bool :=
  prefix part s ||
  match s with
  | EmptyString => false
  | String _ rest => includes rest part
  end.

End JSString.

(** ** Requests, responses and the cache store *)

Record Request := mkRequest {
  url : string;       (* request.url, absolute *)
  method : string;    (* request.method *)
  mode : string       (* request.mode *)
}.

Record Response := mkResponse {
  status : N;
  statusText : string;
  body : string
}.

(** [response.clone()] *)
Definition clone (r : Response) : Response := r.

(** A cache is its request/response list, oldest entry first. *)
Definition Cache := list (Request * Response).

(** The cache storage: named caches, in the order they were created. *)
Definition CacheStorage := list (string * Cache).

Module CacheAPI.

(** Does the stored request [cached] answer the query [q]?  Non-GET
    queries match nothing. *)
Definition request_matches (q cached : Request) : bool :=
  String.eqb (method q) "GET" && String.eqb (url q) (url cached).

(** [cache.match(request)]: the first matching entry. *)
Fixpoint cache_match (q : Request) (c : Cache) : option Response :=
  match c with
  | [] => None
  | (k, v) :: rest =>
      if request_matches q k then Some v else cache_match q rest
  end.

(** [cache.keys()]: the stored requests in insertion order. *)
Definition cache_keys (c : Cache) : list Request := map fst c.

(** [cache.delete(request)]: drops every matching entry. *)
Definition cache_delete (q : Request) (c : Cache) : Cache :=
  filter (fun e => negb (request_matches q (fst e))) c.

(** [cache.put(request, response)]: a put of a non-GET request is
    rejected and writes nothing; otherwise the matching entries are
    removed and the new pair is appended. *)
Definition cache_put (q : Request) (r : Response) (c : Cache) : Cache :=
  if String.eqb (method q) "GET"
  then cache_delete q c ++ [(q, r)]
  else c.

Definition has (name : string) (s : CacheStorage) : bool :=
  existsb (fun e => String.eqb (fst e) name) s.

(** [caches.open(name)]: creates the cache when it does not exist. *)
Definition open (name : string) (s : CacheStorage) : CacheStorage :=
  if has name s then s else s ++ [(name, [])].

(** [caches.delete(name)] *)
Definition delete (name : string) (s : CacheStorage) : CacheStorage :=
  filter (fun e => negb (String.eqb (fst e) name)) s.

(** [caches.keys()]: the cache names in creation order. *)
Definition keys (s : CacheStorage) : list string := map fst s.

(** The cache called [name] (empty when there is none). *)
Fixpoint get (name : string) (s : CacheStorage) : Cache :=
  match s with
  | [] => []
  | (n, c) :: rest => if String.eqb n name then c else get name rest
  end.

(** Apply [f] to the cache called [name]. *)
Definition update (name : string) (f : Cache -> Cache) (s : CacheStorage)
  : CacheStorage :=
  map (fun e => if String.eqb (fst e) name then (fst e, f (snd e)) else e) s.

(** [caches.match(request)]: the caches are searched in creation order. *)
Fixpoint storage_match (q : Request) (s : CacheStorage) : option Response :=
  match s with
  | [] => None
  | (_, c) :: rest =>
      match cache_match q c with
      | Some v => Some v
      | None => storage_match q rest
      end
  end.

End CacheAPI.

(** ** Jobs: promises that were started and not awaited

    A job is what is left to do of an asynchronous call nobody awaits.  The
    event loop advances a job by one platform call at a time, so the calls
    of two pending jobs interleave. *)

#[warnings="-register-all"]
Inductive Job :=
| JDone
| JOpen (name : string) (k : Job)                    (* await caches.open(name) *)
| JKeys (name : string) (k : list Request -> Job)    (* await cache.keys() *)
| JDelete (name : string) (key : Request) (k : Job)  (* cache.delete(key) *)
| JReadBody (k : Job)                                (* cache.put reads the body first *)
| JWrite (name : string) (q : Request) (r : Response) (k : Job)
| JAll (js : list Job).                              (* Promise.all(js), last statement *)

(** The platform calls a job is waiting on: a finished job waits on none,
    [Promise.all] on those of all its members. *)
Fixpoint ready (j : Job) : list Job :=
  match j with
  | JDone => []
  | JAll js => flat_map ready js
  | _ => [j]
  end.

(** One platform call of a job takes effect: the new storage and what the
    job waits on next. *)
Definition step_job (j : Job) (s : CacheStorage) : CacheStorage * list Job :=
  match j with
  | JDone => (s, [])
  | JOpen name k => (CacheAPI.open name s, ready k)
  | JKeys name k => (s, ready (k (CacheAPI.cache_keys (CacheAPI.get name s))))
  | JDelete name key k =>
      (CacheAPI.update name (CacheAPI.cache_delete key) s, ready k)
  | JReadBody k => (s, ready k)
  | JWrite name q r k =>
      (CacheAPI.update name (CacheAPI.cache_put q r) s, ready k)
  | JAll js => (s, flat_map ready js)
  end.

(** [cache.put(request, response)] as a job: the body is read to its end,
    then the pair is written. *)
Definition put_job (name : string) (q : Request) (r : Response) : Job :=
  JReadBody (JWrite name q r JDone).

(** ** The world the worker runs in *)

Inductive Event :=
| EvFetch (q : Request)          (* fetch(request) *)
| EvMatch (q : Request)          (* caches.match(request) *)
| EvOpen (name : string)         (* caches.open(name) *)
| EvAddAll (name : string)       (* cache.addAll(urls) *)
| EvKeys                         (* caches.keys() *)
| EvDeleteCache (name : string)  (* caches.delete(name) *)
| EvLog (msg : string)           (* console.log *)
| EvError (msg : string)         (* console.error *)
| EvSkipWaiting                  (* self.skipWaiting() *)
| EvClaim.                       (* self.clients.claim() *)

Record World := mkWorld {
  caches : CacheStorage;
  network : Request -> option Response;  (* None: the fetch rejects *)
  pending : list Job;
  trace : list Event
}.

Definition set_caches (s : CacheStorage) (w : World) : World :=
  mkWorld s (network w) (pending w) (trace w).

Definition set_network (n : Request -> option Response) (w : World) : World :=
  mkWorld (caches w) n (pending w) (trace w).

Definition add_pending (j : Job) (w : World) : World :=
  mkWorld (caches w) (network w) (pending w ++ ready j) (trace w).

Definition emit (e : Event) (w : World) : World :=
  mkWorld (caches w) (network w) (pending w) (trace w ++ [e]).

(** ** Awaited promises: a state-and-exception monad *)

Inductive Settled (A : Type) :=
| Fulfilled (a : A)
| Rejected (reason : string).
Arguments Fulfilled {A} a.
Arguments Rejected {A} reason.

Definition Promise (A : Type) := World -> Settled A * World.

Definition resolve {A} (a : A) : Promise A := fun w => (Fulfilled a, w).

(** [await p; k] *)
Definition await {A B} (p : Promise A) (k : A -> Promise B) : Promise B :=
  fun w =>
    match p w with
    | (Fulfilled a, w') => k a w'
    | (Rejected e, w') => (Rejected e, w')
    end.

(** [try { p } catch (error) { h error }], also [p.catch(h)] *)
Definition try_catch {A} (p : Promise A) (h : string -> Promise A) : Promise A :=
  fun w =>
    match p w with
    | (Fulfilled a, w') => (Fulfilled a, w')
    | (Rejected e, w') => h e w'
    end.

Declare Scope promise_scope.
Delimit Scope promise_scope with promise.
Notation "x <- p ;; k" := (await p (fun x => k))
  (at level 61, p at next level, right associativity) : promise_scope.
Notation "p ;; k" := (await p (fun _ => k))
  (at level 61, right associativity) : promise_scope.
Local Open Scope promise_scope.

Definition effect (e : Event) : Promise unit := fun w => (Fulfilled tt, emit e w).

Definition console_log (msg : string) : Promise unit := effect (EvLog msg).
Definition console_error (msg : string) : Promise unit := effect (EvError msg).

(** A call nobody awaits: queued for the event loop. *)
Definition unawaited (j : Job) : Promise unit :=
  fun w => (Fulfilled tt, add_pending j w).

(** [fetch(request)] *)
Definition fetch (q : Request) : Promise Response :=
  fun w =>
    match network w q with
    | Some r => (Fulfilled r, emit (EvFetch q) w)
    | None => (Rejected "TypeError: Failed to fetch", emit (EvFetch q) w)
    end.

(** [caches.match(request)]; [None] is JavaScript's [undefined]. *)
Definition caches_match (q : Request) : Promise (option Response) :=
  fun w => (Fulfilled (CacheAPI.storage_match q (caches w)), emit (EvMatch q) w).

(** [caches.open(name)]; the handle of a cache is its name. *)
Definition caches_open (name : string) : Promise string :=
  fun w => (Fulfilled name, emit (EvOpen name) (set_caches (CacheAPI.open name (caches w)) w)).

(** [caches.keys()] *)
Definition caches_keys : Promise (list string) :=
  fun w => (Fulfilled (CacheAPI.keys (caches w)), emit EvKeys w).

(** [caches.delete(name)] *)
Definition caches_delete (name : string) : Promise unit :=
  fun w => (Fulfilled tt,
            emit (EvDeleteCache name) (set_caches (CacheAPI.delete name (caches w)) w)).

(** [Promise.all(xs.map(f))] for awaited calls: all of them are run. *)
Fixpoint promise_all {A} (f : A -> Promise unit) (xs : list A) : Promise unit :=
  match xs with
  | [] => resolve tt
  | x :: rest => f x ;; promise_all f rest
  end.

(** ** The event loop

    [advance i] lets the [i]-th pending job make its next platform call;
    what the job waits on afterwards joins the end of the queue. *)

Definition advance (i : nat) (w : World) : World :=
  match nth_error (pending w) i with
  | None => w
  | Some j =>
      let (s, js) := step_job j (caches w) in
      mkWorld s (network w)
              (firstn i (pending w) ++ skipn (S i) (pending w) ++ js)
              (trace w)
  end.

(** The pending jobs advanced in the order a schedule picks them. *)
Definition run (schedule : list nat) (w : World) : World :=
  fold_left (fun w i => advance i w) schedule w.

(** First come, first served, until nothing is pending (or for [fuel]
    calls). *)
Fixpoint settle (fuel : nat) (w : World) : World :=
  match fuel with
  | 0 => w
  | S fuel' =>
      match pending w with
      | [] => w
      | _ :: _ => settle fuel' (advance 0 w)
      end
  end.

Definition quiescent (w : World) : Prop := pending w = [].

(** Counters read off the trace. *)
Definition is_fetch (e : Event) : bool :=
  match e with EvFetch _ => true | _ => false end.

Definition is_match (e : Event) : bool :=
  match e with EvMatch _ => true | _ => false end.

Definition net_calls (w : World) : nat := length (filter is_fetch (trace w)).
Definition match_calls (w : World) : nat := length (filter is_match (trace w)).

(** ** sw.js *)

Definition CACHE_NAME : string := "podologie-weimar-v1.0.0".
Definition STATIC_CACHE : string := (CACHE_NAME ++ "-static")%string.
Definition DYNAMIC_CACHE : string := (CACHE_NAME ++ "-dynamic")%string.

Definition STATIC_ASSETS : list string :=
  [ "/";
    "/index.html";
    "/styles.css";
    "/script.js";
    "/images/about1.jpeg";
    "/images/about2.jpeg";
    "/images/about3.jpeg";
    "/images/about4.jpeg";
    "/images/about5.jpeg" ].

Definition MAX_DYNAMIC_CACHE_SIZE : nat := 50.

(** [new Response(body, { status, statusText })] *)
Definition new_Response (text : string) (st : N) (stText : string) : Response :=
  mkResponse st stText text.

(** [response.ok]: a status in the success range. *)
Definition ok (r : Response) : bool :=
  (200 <=? status r)%N && (status r <=? 299)%N.

(** The answers [cache.addAll] accepts: in the success range and not a
    partial content. *)
Definition addable (r : Response) : bool :=
  ok r && negb (status r =? 206)%N.

Section ServiceWorker.

(** [location.origin] of the worker and the origin [new URL(u).origin]
    computes; both belong to the browser. *)
Variable location_origin : string.
Variable URL_origin : string -> string.

(** [new Request(path)] for a path-absolute string such as ['/'], which
    is resolved against the worker's own origin. *)
Definition request_of (path : string) : Request :=
  mkRequest (location_origin ++ path)%string "GET" "cors".

(** [cache.addAll(paths)]: every path is fetched; if one fetch fails or
    its answer is not accepted the call rejects and writes nothing,
    otherwise all pairs are written. *)
Fixpoint fetch_all (net : Request -> option Response) (qs : list Request)
  : option (list (Request * Response)) :=
  match qs with
  | [] => Some []
  | q :: rest =>
      match net q, fetch_all net rest with
      | Some r, Some entries =>
        if addable r then Some ((q, r) :: entries) else None
      | _, _ => None
      end
  end.

Definition cache_addAll (cache : string) (paths : list string) : Promise unit :=
  fun w =>
    let requests := map request_of paths in
    let w1 := fold_left (fun w q => emit (EvFetch q) w) requests
                        (emit (EvAddAll cache) w) in
    match fetch_all (network w) requests with
    | Some entries =>
        (Fulfilled tt,
         set_caches
           (fold_left (fun s e => CacheAPI.update cache (CacheAPI.cache_put (fst e) (snd e)) s)
                      entries (caches w1))
           w1)
    | None => (Rejected "TypeError: Request failed", w1)
    end.

Definition skipWaiting : Promise unit := effect EvSkipWaiting.
Definition clients_claim : Promise unit := effect EvClaim.

(** The install listener: the promise handed to [event.waitUntil]. *)
Definition onInstall : Promise unit :=
  console_log "Service Worker installing..." ;;
  try_catch
    (cache <- caches_open STATIC_CACHE ;;
     console_log "Caching static assets..." ;;
     cache_addAll cache STATIC_ASSETS ;;
     skipWaiting)
    (fun error => console_error "Error caching static assets:").

(** The callback the activate listener maps over the cache names. *)
Definition delete_old_cache (cacheName : string) : Promise unit :=
  if negb (String.eqb cacheName STATIC_CACHE) &&
     negb (String.eqb cacheName DYNAMIC_CACHE)
  then console_log "Deleting old cache:" ;; caches_delete cacheName
  else resolve tt.

(** The activate listener: the promise handed to [event.waitUntil]. *)
Definition onActivate : Promise unit :=
  console_log "Service Worker activating..." ;;
  cacheNames <- caches_keys ;;
  promise_all delete_old_cache cacheNames ;;
  clients_claim.

(** [limitCacheSize(cacheName, size)].  Its [try]/[catch] has nothing to
    catch here: no platform call of the model rejects. *)
Definition limitCacheSize (cacheName : string) (size : nat) : Job :=
  JOpen cacheName
    (JKeys cacheName (fun keys =>
       if size <? length keys then
         let keysToDelete := firstn (length keys - size) keys in
         JAll (map (fun key => JDelete cacheName key JDone) keysToDelete)
       else JDone)).

(** [isStaticAsset(url)] *)
Definition isStaticAsset (u : string) : bool :=
  existsb (fun asset => JSString.endsWith u asset) STATIC_ASSETS ||
  JSString.includes u "/images/" ||
  JSString.endsWith u ".css" ||
  JSString.endsWith u ".js" ||
  JSString.endsWith u ".jpg" ||
  JSString.endsWith u ".jpeg" ||
  JSString.endsWith u ".png" ||
  JSString.endsWith u ".gif" ||
  JSString.endsWith u ".webp".

(** [cacheFirst(request)] *)
Definition cacheFirst (request : Request) : Promise Response :=
  try_catch
    (cachedResponse <- caches_match request ;;
     match cachedResponse with
     | Some cached => resolve cached
     | None =>
         networkResponse <- fetch request ;;
         (if (status networkResponse =? 200)%N then
            cache <- caches_open STATIC_CACHE ;;
            unawaited (put_job cache request (clone networkResponse))
          else resolve tt) ;;
         resolve networkResponse
     end)
    (fun error =>
       console_error "Cache-first strategy failed:" ;;
       resolve (new_Response "Offline content not available"
                             503 "Service Unavailable")).

(** [networkFirst(request)] *)
Definition networkFirst (request : Request) : Promise Response :=
  try_catch
    (networkResponse <- fetch request ;;
     (if (status networkResponse =? 200)%N then
        cache <- caches_open DYNAMIC_CACHE ;;
        unawaited (limitCacheSize DYNAMIC_CACHE MAX_DYNAMIC_CACHE_SIZE) ;;
        unawaited (put_job cache request (clone networkResponse))
      else resolve tt) ;;
     resolve networkResponse)
    (fun error =>
       console_log "Network failed, trying cache:" ;;
       cachedResponse <- caches_match request ;;
       match cachedResponse with
       | Some cached => resolve cached
       | None =>
           resolve (new_Response "Content not available offline"
                                 503 "Service Unavailable")
       end).

(** What the fetch listener did with the event: nothing (the browser
    handles the request itself), or [event.respondWith(p)] with what [p]
    settled to; [Fulfilled None] is a promise fulfilled with
    [undefined]. *)
Inductive FetchResult :=
| NotIntercepted
| RespondWith (p : Settled (option Response)).

Definition respondWith {A} (f : A -> option Response) (p : Promise A)
  : World -> FetchResult * World :=
  fun w =>
    match p w with
    | (Fulfilled a, w') => (RespondWith (Fulfilled (f a)), w')
    | (Rejected e, w') => (RespondWith (Rejected e), w')
    end.

(** The fetch listener. *)
Definition onFetch (request : Request) : World -> FetchResult * World :=
  fun w =>
    if negb (String.eqb (URL_origin (url request)) location_origin) then
      (NotIntercepted, w)
    else if String.eqb (mode request) "navigate" then
      respondWith (fun r => r)
        (try_catch
           (response <- caches_match (request_of "/") ;;
            match response with
            | Some r => resolve (Some r)
            | None => r <- fetch request ;; resolve (Some r)
            end)
           (fun _ => caches_match (request_of "/")))
        w
    else if isStaticAsset (url request) then
      respondWith Some (cacheFirst request) w
    else
      respondWith Some (networkFirst request) w.

End ServiceWorker.

(** ** Sample worlds

    A site, a few requests and networks for running the worker on. *)

Definition site : string := "https://podologie-weimar.de".

(** The origin of an absolute URL: everything before the third slash. *)
Fixpoint origin_upto (slashes : nat) (u : string) : string :=
  match u with
  | EmptyString => EmptyString
  | String c rest =>
      if Ascii.eqb c "/" then
        match slashes with
        | 0 => EmptyString
        | S n => String c (origin_upto n rest)
        end
      else String c (origin_upto slashes rest)
  end.

Definition origin_of (u : string) : string := origin_upto 2 u.

Definition get_request (path : string) : Request :=
  mkRequest (site ++ path)%string "GET" "no-cors".

Definition navigate_to (path : string) : Request :=
  mkRequest (site ++ path)%string "GET" "navigate".

(** A server that answers every request with 200 and the requested URL as
    body, one that answers 204, one that answers 404, and no network at
    all. *)
Definition online : Request -> option Response :=
  fun q => Some (mkResponse 200 "OK" (url q)).

Definition no_content : Request -> option Response :=
  fun _ => Some (mkResponse 204 "No Content" "").

Definition not_found : Request -> option Response :=
  fun _ => Some (mkResponse 404 "Not Found" "gone").

Definition offline : Request -> option Response := fun _ => None.

(** Nothing cached, nothing pending, nothing logged. *)
Definition fresh (net : Request -> option Response) : World :=
  mkWorld [] net [] [].

(** The [n]-th of a family of distinct dynamic URLs. *)
Definition api (n : nat) : Request :=
  get_request ("/api/" ++ String (ascii_of_nat (65 + n)) "").

(** One write-and-evict cycle: [networkFirst] answers the request, then
    the event loop runs until the jobs it left have finished. *)
Definition dynamic_cycle (w : World) (request : Request) : World :=
  settle 64 (snd (networkFirst request w)).

(** The world after the first [n] dynamic URLs were requested in turn,
    starting with nothing cached and a server that answers 200. *)
Definition after_writes (n : nat) : World :=
  fold_left dynamic_cycle (map api (seq 0 n)) (fresh online).

(** The same cycle when the event loop lets the put read its body and
    write before [limitCacheSize] makes its first call. *)
Definition dynamic_cycle_write_first (w : World) (request : Request) : World :=
  settle 64 (run [1; 1] (snd (networkFirst request w))).

Definition after_writes_write_first (n : nat) : World :=
  fold_left dynamic_cycle_write_first (map api (seq 0 n)) (fresh online).

(** The sample world after a successful install. *)
Definition installed : World := snd (onInstall site (fresh online)).

(** A storage left behind by two earlier deployments, with the current
    STATIC namespace already installed next to it. *)
Definition upgraded : World :=
  mkWorld [ ("podologie-weimar-v0.9.0-static", [(get_request "/", mkResponse 200 "OK" "old")]);
            ("podologie-weimar-v0.9.0-dynamic", []);
            (STATIC_CACHE, [(get_request "/", mkResponse 200 "OK" "new")]);
            ("unrelated", []) ]
          online [] [].

(** ** Notions the properties are stated with *)

(** A manifest request [cache.addAll] cannot use: the fetch fails or the
    answer is not accepted. *)
Definition unfetchable (net : Request -> option Response) (q : Request) : Prop :=
  match net q with
  | Some r => addable r = false
  | None => True
  end.

(** The names the activate listener keeps. *)
Definition current (name : string) : bool :=
  String.eqb name STATIC_CACHE || String.eqb name DYNAMIC_CACHE.

(** Every stored request is a GET request. *)
Definition all_GET (c : Cache) : Prop :=
  Forall (fun e => method (fst e) = "GET") c.

(** A stored entry survives the deletes of [l] when none of them matches
    its request. *)
Definition survives (l : list Request) (e : Request * Response) : bool :=
  forallb (fun key => negb (CacheAPI.request_matches key (fst e))) l.

(** What [limitCacheSize] deletes from a cache whose keys were listed as
    those of [c]. *)
Definition evict (c : Cache) (now : Cache) : Cache :=
  fold_left (fun x key => CacheAPI.cache_delete key x)
            (firstn (length c - MAX_DYNAMIC_CACHE_SIZE) (CacheAPI.cache_keys c))
            now.

(** The invariant of the DYNAMIC namespace between two cycles. *)
Definition dynamic_inv (w : World) : Prop :=
  quiescent w /\
  all_GET (CacheAPI.get DYNAMIC_CACHE (caches w)) /\
  length (CacheAPI.get DYNAMIC_CACHE (caches w)) <= S MAX_DYNAMIC_CACHE_SIZE.

(** ** sw.js: the notification click listener *)

(** A window client as [clients.matchAll] lists it: its URL and whether
    ['focus' in client] holds. *)
Record WindowClient := mkClient {
  client_url : string;
  can_focus : bool
}.

(** What the promise handed to [event.waitUntil] ends with. *)
Inductive ClickOutcome :=
| Focused (client : WindowClient)   (* return client.focus() *)
| Opened (target : string)          (* return clients.openWindow(target) *)
| NothingDone.                      (* falls off the end *)

(** The [for ... of] loop over the client list, left at the first client
    whose URL is ['/']. *)
Fixpoint focus_root_client (clientList : list WindowClient) : option WindowClient :=
  match clientList with
  | [] => None
  | client :: rest =>
      if String.eqb (client_url client) "/" && can_focus client
      then Some client
      else focus_root_client rest
  end.

(** The notification click listener, given what [clients.matchAll]
    returned and whether [clients.openWindow] exists. *)
Definition onNotificationClick (clientList : list WindowClient) (openWindow : bool)
  : ClickOutcome :=
  match focus_root_client clientList with
  | Some client => Focused client
  | None => if openWindow then Opened "/" else NothingDone
  end.

(** ** More notions *)

(** No two stored requests have the same URL. *)
Definition distinct_urls (c : Cache) : Prop :=
  NoDup (map url (CacheAPI.cache_keys c)).

(** [limitCacheSize] alone, run until the event loop is idle. *)
Definition limit_run (fuel : nat) (cacheName : string) (size : nat) (w : World) : World :=
  settle fuel (add_pending (limitCacheSize cacheName size) w).

(** A request for a manifest asset as a page issues it. *)
Definition asset_request (origin asset : string) (m : string) : Request :=
  mkRequest (origin ++ asset)%string "GET" m.

(** * Properties *)

(** ** The cache store *)

Module CacheFacts.
Import CacheAPI.

Lemma cache_match_app q c1 c2 :
  cache_match q (c1 ++ c2) =
  match cache_match q c1 with
  | Some v => Some v
  | None => cache_match q c2
  end.
Proof.
  induction c1 as [|[k v] c1 IH]; simpl; [reflexivity|].
  destruct (request_matches q k); [reflexivity | exact IH].
Qed.

Lemma cache_match_delete q c : cache_match q (cache_delete q c) = None.
Proof.
  unfold cache_delete.
  induction c as [|[k v] c IH]; simpl; [reflexivity|].
  destruct (request_matches q k) eqn:E; simpl; [exact IH|].
  rewrite E. exact IH.
Qed.

Lemma request_matches_refl q :
  method q = "GET" -> request_matches q q = true.
Proof.
  intros H. unfold request_matches.
  rewrite H, !String.eqb_refl. reflexivity.
Qed.

(** A GET request just put is found again. *)
Lemma cache_match_put q r c :
  method q = "GET" -> cache_match q (cache_put q r c) = Some r.
Proof.
  intros H. unfold cache_put. rewrite H. simpl.
  rewrite cache_match_app, cache_match_delete. simpl.
  rewrite request_matches_refl by assumption. reflexivity.
Qed.

Lemma has_open name s : has name (open name s) = true.
Proof.
  unfold open. destruct (has name s) eqn:E; [exact E|].
  unfold has. rewrite existsb_app. simpl.
  rewrite String.eqb_refl, orb_true_r. reflexivity.
Qed.

Lemma get_update name f s :
  has name s = true -> get name (update name f s) = f (get name s).
Proof.
  unfold has, update.
  induction s as [|[n c] s IH]; simpl; [discriminate|].
  destruct (String.eqb n name) eqn:E; simpl; rewrite E.
  - reflexivity.
  - exact IH.
Qed.

Lemma keys_update name f s : keys (update name f s) = keys s.
Proof.
  unfold keys, update. rewrite map_map. apply map_ext.
  intros [n c]. simpl. destruct (String.eqb n name); reflexivity.
Qed.

Lemma has_In name s : has name s = true <-> In name (keys s).
Proof.
  unfold has, keys. rewrite existsb_exists, in_map_iff. split.
  - intros [e [Hin He]]. apply String.eqb_eq in He. eauto.
  - intros [e [He Hin]]. exists e. split; [exact Hin|].
    apply String.eqb_eq. exact He.
Qed.

(** Cache names stay unique: [caches.open] creates a cache only when
    there is none of that name. *)
Lemma NoDup_open name s : NoDup (keys s) -> NoDup (keys (open name s)).
Proof.
  intros H. unfold open. destruct (has name s) eqn:E; [exact H|].
  unfold keys. rewrite map_app. simpl.
  apply NoDup_app; [exact H | repeat constructor; intros [] | ].
  intros x Hx [<-|[]]. apply has_In in Hx. congruence.
Qed.

Lemma keys_delete name s :
  keys (delete name s) = filter (fun n => negb (String.eqb n name)) (keys s).
Proof.
  unfold keys, delete.
  induction s as [|[n c] s IH]; simpl; [reflexivity|].
  destruct (String.eqb n name); simpl; rewrite IH; reflexivity.
Qed.

Lemma NoDup_delete name s : NoDup (keys s) -> NoDup (keys (delete name s)).
Proof. intros H. rewrite keys_delete. apply NoDup_filter. exact H. Qed.

Lemma NoDup_count (x : string) (l : list string) :
  NoDup l -> length (filter (String.eqb x) l) <= 1.
Proof.
  induction 1 as [|y l Hy Hl IH]; simpl; [lia|].
  destruct (String.eqb x y) eqn:E; [|exact IH].
  apply String.eqb_eq in E. subst y. simpl.
  assert (filter (String.eqb x) l = []) as ->; [|simpl; lia].
  clear - Hy. induction l as [|z l IHl]; simpl; [reflexivity|].
  destruct (String.eqb x z) eqn:Ez.
  - apply String.eqb_eq in Ez. subst z. exfalso. apply Hy. left. reflexivity.
  - apply IHl. intros Hin. apply Hy. right. exact Hin.
Qed.

End CacheFacts.

(** ** Cache-first *)

Ltac unfold_promise :=
  unfold try_catch, await, resolve, caches_match, caches_open, fetch,
         unawaited, console_log, console_error, effect.

Ltac run_promise := unfold_promise; cbn.

(** C4. Cache-first: a request with a matching cache entry is answered
    with that entry and no network fetch is issued; a request without one
    whose network fetch fails is answered with a response of status 503. *)
Theorem cacheFirst_hit_or_503 (request : Request) (w : World) :
  (forall cached,
      CacheAPI.storage_match request (caches w) = Some cached ->
      fst (cacheFirst request w) = Fulfilled cached /\
      net_calls (snd (cacheFirst request w)) = net_calls w) /\
  (CacheAPI.storage_match request (caches w) = None ->
   network w request = None ->
   exists r, fst (cacheFirst request w) = Fulfilled r /\ status r = 503%N).
Proof.
  split.
  - intros cached Hhit. unfold cacheFirst. run_promise. rewrite Hhit. cbn.
    split; [reflexivity|].
    unfold net_calls. cbn. rewrite filter_app. cbn. rewrite app_nil_r.
    reflexivity.
  - intros Hmiss Hnet. unfold cacheFirst. run_promise.
    rewrite Hmiss. cbn. rewrite Hnet. cbn.
    eexists. split; reflexivity.
Qed.

Lemma cacheFirst_hit_or_503_witness :
  (fst (cacheFirst (get_request "/styles.css") installed)
     = Fulfilled (mkResponse 200 "OK" (site ++ "/styles.css")) /\
   net_calls (snd (cacheFirst (get_request "/styles.css") installed))
     = net_calls installed) /\
  (exists r, fst (cacheFirst (get_request "/logo.png") (fresh offline))
               = Fulfilled r /\ status r = 503%N).
Proof.
  split.
  - apply (proj1 (cacheFirst_hit_or_503 (get_request "/styles.css") installed)).
    vm_compute. reflexivity.
  - apply (proj2 (cacheFirst_hit_or_503 (get_request "/logo.png") (fresh offline)));
      reflexivity.
Defined.

(** Cache-first stores nothing when the answer is 204, a status of the
    success range: the response is handed back, no put is started, and the
    STATIC namespace has no entry for the request once the event loop is
    idle. *)
Lemma cacheFirst_skips_status_204 :
  let request := get_request "/styles.css" in
  let w := fresh no_content in
  let w' := snd (cacheFirst request w) in
  CacheAPI.storage_match request (caches w) = None /\
  (exists r, network w request = Some r /\ ok r = true /\
             fst (cacheFirst request w) = Fulfilled r) /\
  pending w' = [] /\
  CacheAPI.cache_match request (CacheAPI.get STATIC_CACHE (caches (settle 8 w'))) = None.
Proof.
  cbv zeta. split; [reflexivity|]. split; [|split; reflexivity].
  eexists. repeat split.
Qed.

(** C5, amended. Cache-first on a cache miss: when the network answers
    with status exactly 200, the worker opens the STATIC namespace and
    starts, without awaiting it, the put of a copy of the response before
    it returns the response; for a GET request and an otherwise idle event
    loop the STATIC namespace holds that copy under the request once the
    put has completed. *)
Theorem cacheFirst_stores_status_200
    (request : Request) (networkResponse : Response) (w : World) :
  CacheAPI.storage_match request (caches w) = None ->
  network w request = Some networkResponse ->
  status networkResponse = 200%N ->
  let w' := snd (cacheFirst request w) in
  fst (cacheFirst request w) = Fulfilled networkResponse /\
  pending w' = pending w ++ ready (put_job STATIC_CACHE request networkResponse) /\
  (method request = "GET" -> quiescent w ->
   quiescent (settle 2 w') /\
   CacheAPI.cache_match request (CacheAPI.get STATIC_CACHE (caches (settle 2 w')))
     = Some networkResponse).
Proof.
  intros Hmiss Hnet Hst.
  assert (Hrun : cacheFirst request w =
                 (Fulfilled networkResponse,
                  add_pending (put_job STATIC_CACHE request networkResponse)
                    (emit (EvOpen STATIC_CACHE)
                       (set_caches (CacheAPI.open STATIC_CACHE (caches w))
                          (emit (EvFetch request) (emit (EvMatch request) w)))))).
  { unfold cacheFirst. run_promise.
    rewrite Hmiss. cbn. rewrite Hnet. cbn. rewrite Hst. reflexivity. }
  cbv zeta. rewrite Hrun. clear Hrun.
  split; [reflexivity|]. split; [reflexivity|].
  intros Hget Hidle. destruct w as [s net jobs tr].
  red in Hidle. cbn in Hidle. subst jobs.
  split; [reflexivity|].
  change (CacheAPI.cache_match request
            (CacheAPI.get STATIC_CACHE
               (CacheAPI.update STATIC_CACHE
                  (CacheAPI.cache_put request networkResponse)
                  (CacheAPI.open STATIC_CACHE s))) = Some networkResponse).
  rewrite CacheFacts.get_update by apply CacheFacts.has_open.
  apply CacheFacts.cache_match_put. exact Hget.
Qed.

Lemma cacheFirst_stores_status_200_witness :
  let request := get_request "/logo.png" in
  let w := fresh online in
  let r := mkResponse 200 "OK" (site ++ "/logo.png") in
  fst (cacheFirst request w) = Fulfilled r /\
  CacheAPI.cache_match request
    (CacheAPI.get STATIC_CACHE (caches (settle 2 (snd (cacheFirst request w))))) = Some r.
Proof.
  cbv zeta.
  destruct (cacheFirst_stores_status_200 (get_request "/logo.png")
              (mkResponse 200 "OK" (site ++ "/logo.png")) (fresh online)
              eq_refl eq_refl eq_refl) as [Hres [_ Hput]].
  split; [exact Hres|].
  apply Hput; reflexivity.
Defined.

(** ** Network-first *)

(** C6. Network-first: when the network fetch fails the strategy answers
    with the matching cached entry if there is one and with a synthetic
    503 response otherwise; the promise it returns is never rejected. *)
Theorem networkFirst_offline_fallback (request : Request) (w : World) :
  network w request = None ->
  fst (networkFirst request w) =
    Fulfilled
      match CacheAPI.storage_match request (caches w) with
      | Some cached => cached
      | None => new_Response "Content not available offline"
                             503 "Service Unavailable"
      end /\
  (forall reason, fst (networkFirst request w) <> Rejected reason).
Proof.
  intros Hnet. unfold networkFirst. run_promise. rewrite Hnet. cbn.
  destruct (CacheAPI.storage_match request (caches w)); cbn;
    (split; [reflexivity | discriminate]).
Qed.

Lemma networkFirst_offline_fallback_witness :
  fst (networkFirst (api 0) (set_network offline (after_writes 1)))
    = Fulfilled (mkResponse 200 "OK" (url (api 0))) /\
  fst (networkFirst (api 1) (set_network offline (after_writes 1)))
    = Fulfilled (new_Response "Content not available offline"
                              503 "Service Unavailable").
Proof.
  split.
  - exact (proj1 (networkFirst_offline_fallback (api 0)
                    (set_network offline (after_writes 1)) eq_refl)).
  - exact (proj1 (networkFirst_offline_fallback (api 1)
                    (set_network offline (after_writes 1)) eq_refl)).
Defined.

(** C10. Network-first: a response whose status is not 200 is returned
    unchanged, nothing is written or queued for the DYNAMIC namespace and
    no cache is consulted; the cache is consulted only when the fetch
    itself rejects. *)
Theorem networkFirst_non_200_passes_through (request : Request) (w : World) :
  (forall networkResponse,
      network w request = Some networkResponse ->
      status networkResponse <> 200%N ->
      fst (networkFirst request w) = Fulfilled networkResponse /\
      caches (snd (networkFirst request w)) = caches w /\
      pending (snd (networkFirst request w)) = pending w /\
      match_calls (snd (networkFirst request w)) = match_calls w) /\
  (match_calls (snd (networkFirst request w)) <> match_calls w ->
   network w request = None).
Proof.
  assert (Hcount : forall e, is_match e = false ->
            match_calls (emit e w) = match_calls w).
  { intros e He. unfold match_calls. cbn. rewrite filter_app. cbn.
    rewrite He, app_nil_r. reflexivity. }
  split.
  - intros networkResponse Hnet Hst. unfold networkFirst. run_promise.
    rewrite Hnet. cbn.
    apply N.eqb_neq in Hst. rewrite Hst. cbn.
    repeat split. apply Hcount. reflexivity.
  - unfold networkFirst. run_promise.
    destruct (network w request) as [r|]; [|reflexivity].
    cbn. intros H. exfalso. apply H.
    destruct (status r =? 200)%N; cbn.
    + unfold match_calls. cbn. rewrite !filter_app. cbn.
      rewrite !app_nil_r. reflexivity.
    + apply Hcount. reflexivity.
Qed.

Lemma networkFirst_non_200_passes_through_witness :
  let w := set_network not_found (after_writes 1) in
  (fst (networkFirst (api 0) w) = Fulfilled (mkResponse 404 "Not Found" "gone") /\
   caches (snd (networkFirst (api 0) w)) = caches w /\
   pending (snd (networkFirst (api 0) w)) = pending w /\
   match_calls (snd (networkFirst (api 0) w)) = match_calls w) /\
  network (set_network offline w) (api 0) = None.
Proof.
  cbv zeta. split.
  - apply (proj1 (networkFirst_non_200_passes_through (api 0)
                    (set_network not_found (after_writes 1)))).
    + reflexivity.
    + discriminate.
  - apply (proj2 (networkFirst_non_200_passes_through (api 0)
                    (set_network offline (set_network not_found (after_writes 1))))).
    vm_compute. discriminate.
Defined.

(** ** Install *)

Lemma fetch_all_unfetchable net qs :
  (exists q, In q qs /\ unfetchable net q) -> fetch_all net qs = None.
Proof.
  induction qs as [|q0 qs IH]; intros [q [Hin Hq]]; [destruct Hin|].
  simpl. destruct Hin as [->|Hin].
  - unfold unfetchable in Hq. destruct (net q) as [r|]; [|reflexivity].
    rewrite Hq. destruct (fetch_all net qs); reflexivity.
  - rewrite IH by eauto. destruct (net q0); reflexivity.
Qed.

(** Whatever the network does, the promise the install listener hands to
    [event.waitUntil] is fulfilled. *)
Lemma onInstall_fulfilled origin w : fst (onInstall origin w) = Fulfilled tt.
Proof.
  unfold onInstall, cache_addAll, skipWaiting. unfold_promise.
  destruct (fetch_all _ _); reflexivity.
Qed.

(** With no network at all the install step still succeeds: the promise
    handed to [event.waitUntil] is fulfilled, not rejected. *)
Lemma install_succeeds_offline :
  network (fresh offline) (request_of site "/") = None /\
  fst (onInstall site (fresh offline)) = Fulfilled tt /\
  ~ (exists reason, fst (onInstall site (fresh offline)) = Rejected reason).
Proof.
  split; [reflexivity|]. split; [reflexivity|].
  intros [reason H]. discriminate H.
Qed.

(** C3, amended. If a URL of the static asset manifest cannot be fetched
    during install, the rejection is caught and logged and the promise
    handed to [event.waitUntil] is fulfilled, so the install step does not
    fail; [skipWaiting] is not called, every manifest URL was fetched once
    and none again, and nothing is written to the STATIC namespace. *)
Theorem install_swallows_fetch_failure (origin : string) (w : World) :
  (exists asset, In asset STATIC_ASSETS /\
                 unfetchable (network w) (request_of origin asset)) ->
  fst (onInstall origin w) = Fulfilled tt /\
  caches (snd (onInstall origin w)) = CacheAPI.open STATIC_CACHE (caches w) /\
  trace (snd (onInstall origin w)) =
    trace w ++
    [EvLog "Service Worker installing..."; EvOpen STATIC_CACHE;
     EvLog "Caching static assets..."; EvAddAll STATIC_CACHE] ++
    map EvFetch (map (request_of origin) STATIC_ASSETS) ++
    [EvError "Error caching static assets:"].
Proof.
  intros [asset [Hin Hbad]].
  assert (Hall : fetch_all (network w) (map (request_of origin) STATIC_ASSETS) = None).
  { apply fetch_all_unfetchable. exists (request_of origin asset).
    split; [apply in_map; exact Hin | exact Hbad]. }
  unfold onInstall, cache_addAll, skipWaiting. unfold_promise.
  cbn -[fetch_all STATIC_ASSETS].
  rewrite Hall. cbn. repeat split.
  rewrite <- !app_assoc. reflexivity.
Qed.

Lemma install_swallows_fetch_failure_witness :
  fst (onInstall site (fresh offline)) = Fulfilled tt /\
  caches (snd (onInstall site (fresh offline))) = [(STATIC_CACHE, [])].
Proof.
  assert (H : exists asset, In asset STATIC_ASSETS /\
                unfetchable (network (fresh offline)) (request_of site asset)).
  { exists "/styles.css". split; [simpl; tauto | exact I]. }
  destruct (install_swallows_fetch_failure site (fresh offline) H) as [Hres [Hcaches _]].
  split; [exact Hres | exact Hcaches].
Defined.

(** A successful install leaves every manifest URL answerable from the
    cache. *)

Lemma fetch_all_keys net qs entries :
  fetch_all net qs = Some entries -> map fst entries = qs.
Proof.
  revert entries. induction qs as [|q qs IH]; intros entries H.
  - injection H as <-. reflexivity.
  - simpl in H. destruct (net q) as [r|]; [|discriminate].
    destruct (fetch_all net qs) as [rest|]; [|discriminate].
    destruct (addable r); [|discriminate].
    injection H as <-. simpl. rewrite (IH rest eq_refl). reflexivity.
Qed.

Lemma fetch_all_fetchable net qs :
  (forall q, In q qs -> ~ unfetchable net q) ->
  exists entries, fetch_all net qs = Some entries.
Proof.
  induction qs as [|q qs IH]; intros H; [eexists; reflexivity|].
  destruct IH as [rest Hrest]; [intros q' Hq'; apply H; right; exact Hq'|].
  pose proof (H q (or_introl eq_refl)) as Hq. unfold unfetchable in Hq.
  simpl. rewrite Hrest. destruct (net q) as [r|]; [|tauto].
  destruct (addable r); [eexists; reflexivity | congruence].
Qed.

Lemma update_fold name (entries : list (Request * Response)) : forall s,
  fold_left (fun s e => CacheAPI.update name (CacheAPI.cache_put (fst e) (snd e)) s)
            entries s =
  CacheAPI.update name
    (fun c => fold_left (fun c e => CacheAPI.cache_put (fst e) (snd e) c) entries c) s.
Proof.
  induction entries as [|e entries IH]; intros s; simpl.
  - unfold CacheAPI.update. rewrite <- (map_id s) at 1. apply map_ext.
    intros [n c]. simpl. destruct (String.eqb n name); reflexivity.
  - rewrite IH. unfold CacheAPI.update. rewrite map_map. apply map_ext.
    intros [n c]. simpl. destruct (String.eqb n name) eqn:E; simpl; rewrite E;
      reflexivity.
Qed.

(** A put never makes a GET request that matched stop matching. *)
Lemma cache_match_put_keeps q e r c :
  CacheAPI.cache_match q c <> None ->
  CacheAPI.cache_match q (CacheAPI.cache_put e r c) <> None.
Proof.
  intros H. unfold CacheAPI.cache_put.
  destruct (String.eqb (method e) "GET") eqn:Hget; [|exact H].
  rewrite CacheFacts.cache_match_app.
  destruct (CacheAPI.cache_match q (CacheAPI.cache_delete e c)) eqn:Hkept;
    [discriminate|].
  simpl. destruct (CacheAPI.request_matches q e) eqn:Hqe; [discriminate|].
  exfalso. apply H. clear H. unfold CacheAPI.cache_delete in Hkept.
  induction c as [|[k v] c IH]; [reflexivity|].
  simpl in *. destruct (CacheAPI.request_matches q k) eqn:Hqk.
  - destruct (CacheAPI.request_matches e k) eqn:Hek; simpl in Hkept.
    + unfold CacheAPI.request_matches in Hqe, Hqk, Hek.
      apply andb_prop in Hqk. destruct Hqk as [Hq Hqk].
      apply andb_prop in Hek. destruct Hek as [_ Hek].
      apply String.eqb_eq in Hqk, Hek.
      rewrite Hq, Hqk, <- Hek, String.eqb_refl in Hqe. discriminate.
    + rewrite Hqk in Hkept. discriminate.
  - destruct (CacheAPI.request_matches e k); simpl in Hkept.
    + apply IH. exact Hkept.
    + rewrite Hqk in Hkept. apply IH. exact Hkept.
Qed.

Lemma cache_match_puts q (entries : list (Request * Response)) : forall c,
  method q = "GET" ->
  (In q (map fst entries) \/ CacheAPI.cache_match q c <> None) ->
  CacheAPI.cache_match q
    (fold_left (fun c e => CacheAPI.cache_put (fst e) (snd e) c) entries c) <> None.
Proof.
  induction entries as [|[k v] entries IH]; intros c Hget H; simpl.
  - destruct H as [[]|H]. exact H.
  - apply IH; [exact Hget|]. simpl in H. destruct H as [[->|H]|H].
    + right. rewrite CacheFacts.cache_match_put by exact Hget. discriminate.
    + left. exact H.
    + right. apply cache_match_put_keeps. exact H.
Qed.

Lemma storage_match_get q name s :
  CacheAPI.cache_match q (CacheAPI.get name s) <> None ->
  CacheAPI.storage_match q s <> None.
Proof.
  induction s as [|[n c] s IH]; simpl; [tauto|].
  destruct (CacheAPI.cache_match q c) eqn:Hc; [discriminate|].
  destruct (String.eqb n name); [congruence | exact IH].
Qed.


(** ** Activate *)

Lemma current_spec name :
  current name = true <-> name = STATIC_CACHE \/ name = DYNAMIC_CACHE.
Proof.
  unfold current. rewrite orb_true_iff, !String.eqb_eq. reflexivity.
Qed.

Lemma delete_old_cache_caches name w :
  fst (delete_old_cache name w) = Fulfilled tt /\
  caches (snd (delete_old_cache name w)) =
    if current name then caches w else CacheAPI.delete name (caches w).
Proof.
  unfold delete_old_cache, current.
  destruct (String.eqb name STATIC_CACHE), (String.eqb name DYNAMIC_CACHE);
    cbn; split; reflexivity.
Qed.

Lemma promise_all_delete_old names : forall w,
  fst (promise_all delete_old_cache names w) = Fulfilled tt /\
  caches (snd (promise_all delete_old_cache names w)) =
    filter (fun e => current (fst e) ||
                     negb (existsb (String.eqb (fst e)) names))
           (caches w).
Proof.
  induction names as [|name names IH]; intros w.
  - cbn. split; [reflexivity|].
    symmetry. apply forallb_filter_id.
    apply forallb_forall. intros e _. apply orb_true_r.
  - cbn [promise_all]. unfold await.
    destruct (delete_old_cache_caches name w) as [Hres Hcaches].
    destruct (delete_old_cache name w) as [r w1]. cbn in Hres, Hcaches.
    subst r. destruct (IH w1) as [IHres IHcaches].
    split; [exact IHres|]. rewrite IHcaches, Hcaches. clear.
    destruct (current name) eqn:Ecur.
    + apply filter_ext_in. intros [n c] _. cbn.
      destruct (String.eqb n name) eqn:E; [|reflexivity].
      apply String.eqb_eq in E. subst n. rewrite Ecur. reflexivity.
    + unfold CacheAPI.delete.
      induction (caches w) as [|[n c] s IHs]; [reflexivity|].
      cbn. destruct (String.eqb n name) eqn:E; cbn.
      * apply String.eqb_eq in E. subst n. rewrite Ecur. cbn. exact IHs.
      * rewrite IHs. reflexivity.
Qed.

(** Activation keeps exactly the caches with a current name. *)
Lemma onActivate_caches w :
  fst (onActivate w) = Fulfilled tt /\
  caches (snd (onActivate w)) = filter (fun e => current (fst e)) (caches w).
Proof.
  unfold onActivate, clients_claim, caches_keys. run_promise.
  pose proof (promise_all_delete_old (CacheAPI.keys (caches w))
                (emit EvKeys (emit (EvLog "Service Worker activating...") w)))
    as [Hres Hcaches].
  destruct (promise_all delete_old_cache _ _) as [r w1].
  cbn in Hres, Hcaches. subst r. cbn. split; [reflexivity|].
  rewrite Hcaches. apply filter_ext_in. intros e He.
  assert (existsb (String.eqb (fst e)) (CacheAPI.keys (caches w)) = true) as ->.
  { apply existsb_exists. exists (fst e).
    split; [apply in_map; exact He | apply String.eqb_refl]. }
  cbn. apply orb_false_r.
Qed.

Lemma get_filter_kept (p : string -> bool) name s :
  p name = true ->
  CacheAPI.get name (filter (fun e => p (fst e)) s) = CacheAPI.get name s.
Proof.
  intros Hp. induction s as [|[n c] s IH]; [reflexivity|].
  cbn. destruct (p n) eqn:En; cbn; destruct (String.eqb n name) eqn:E;
    try reflexivity; try exact IH.
  apply String.eqb_eq in E. congruence.
Qed.

Lemma keys_filter (p : string -> bool) s :
  CacheAPI.keys (filter (fun e => p (fst e)) s) = filter p (CacheAPI.keys s).
Proof.
  unfold CacheAPI.keys.
  induction s as [|[n c] s IH]; [reflexivity|].
  cbn. destruct (p n); cbn; rewrite IH; reflexivity.
Qed.

(** C8. Activation: every cache namespace whose name is neither the
    current STATIC nor the current DYNAMIC identifier is deleted, the
    current namespaces stay as they were, and afterwards at most one
    STATIC and one DYNAMIC namespace are live. *)
Theorem activate_deletes_stale_namespaces (w : World) :
  NoDup (CacheAPI.keys (caches w)) ->
  let names := CacheAPI.keys (caches w) in
  let names' := CacheAPI.keys (caches (snd (onActivate w))) in
  fst (onActivate w) = Fulfilled tt /\
  (forall name, In name names ->
     name <> STATIC_CACHE -> name <> DYNAMIC_CACHE -> ~ In name names') /\
  (forall name, name = STATIC_CACHE \/ name = DYNAMIC_CACHE ->
     (In name names -> In name names') /\
     CacheAPI.get name (caches (snd (onActivate w))) = CacheAPI.get name (caches w)) /\
  (forall name, In name names' -> name = STATIC_CACHE \/ name = DYNAMIC_CACHE) /\
  length (filter (String.eqb STATIC_CACHE) names') <= 1 /\
  length (filter (String.eqb DYNAMIC_CACHE) names') <= 1.
Proof.
  intros Hnodup names names'.
  destruct (onActivate_caches w) as [Hres Hcaches].
  assert (Hnames : names' = filter current names).
  { subst names' names. rewrite Hcaches. apply keys_filter. }
  split; [exact Hres|].
  assert (Hnodup' : NoDup names').
  { rewrite Hnames. apply NoDup_filter. exact Hnodup. }
  repeat split.
  - intros name _ Hs Hd Hin. rewrite Hnames in Hin.
    apply filter_In in Hin. destruct Hin as [_ Hcur].
    apply current_spec in Hcur. tauto.
  - intros Hin. rewrite Hnames. apply filter_In.
    split; [exact Hin | apply current_spec; assumption].
  - rewrite Hcaches. apply get_filter_kept. apply current_spec. assumption.
  - intros name Hin. rewrite Hnames in Hin. apply filter_In in Hin.
    apply current_spec. tauto.
  - apply CacheFacts.NoDup_count. exact Hnodup'.
  - apply CacheFacts.NoDup_count. exact Hnodup'.
Qed.

Lemma activate_deletes_stale_namespaces_witness :
  CacheAPI.keys (caches (snd (onActivate upgraded))) = [STATIC_CACHE] /\
  ~ In "podologie-weimar-v0.9.0-static"
       (CacheAPI.keys (caches (snd (onActivate upgraded)))) /\
  CacheAPI.get STATIC_CACHE (caches (snd (onActivate upgraded)))
    = CacheAPI.get STATIC_CACHE (caches upgraded).
Proof.
  assert (Hnodup : NoDup (CacheAPI.keys (caches upgraded))).
  { repeat constructor; simpl; intuition discriminate. }
  destruct (activate_deletes_stale_namespaces upgraded Hnodup)
    as [_ [Hstale [Hkept _]]].
  split; [reflexivity|]. split.
  - apply Hstale; [simpl; tauto | discriminate | discriminate].
  - apply (Hkept STATIC_CACHE). left. reflexivity.
Defined.

(** ** Navigation *)

(** What the fetch listener does with a same-origin navigation. *)
Lemma onFetch_navigate origin URL_origin request w :
  URL_origin (url request) = origin ->
  mode request = "navigate" ->
  onFetch origin URL_origin request w =
    let root := request_of origin "/" in
    let w1 := emit (EvMatch root) w in
    match CacheAPI.storage_match root (caches w) with
    | Some r => (RespondWith (Fulfilled (Some r)), w1)
    | None =>
        match network w request with
        | Some r => (RespondWith (Fulfilled (Some r)), emit (EvFetch request) w1)
        | None =>
            (RespondWith (Fulfilled None),
             emit (EvMatch root) (emit (EvFetch request) w1))
        end
    end.
Proof.
  intros Horigin Hmode. unfold onFetch, respondWith.
  rewrite Horigin, Hmode, String.eqb_refl. cbn [negb String.eqb Ascii.eqb Bool.eqb].
  run_promise.
  destruct (CacheAPI.storage_match (request_of origin "/") (caches w))
    as [r|] eqn:Hroot; cbn; [reflexivity|].
  destruct (network w request) as [r|]; cbn; [reflexivity|].
  rewrite Hroot. reflexivity.
Qed.

Lemma net_calls_emit e w :
  net_calls (emit e w) = net_calls w + (if is_fetch e then 1 else 0).
Proof.
  unfold net_calls. cbn. rewrite filter_app, length_app. cbn.
  destruct (is_fetch e); reflexivity.
Qed.

(** C7. Navigation fallback: a navigation request with no matching cache
    entry and a failing network is answered with whatever is cached for
    the root path, so with the cached root document when there is one, and
    not with a synthetic 503. *)
Theorem navigation_offline_fallback
    (origin : string) (URL_origin : string -> string)
    (request : Request) (w : World) :
  URL_origin (url request) = origin ->
  mode request = "navigate" ->
  CacheAPI.storage_match request (caches w) = None ->
  network w request = None ->
  fst (onFetch origin URL_origin request w) =
    RespondWith (Fulfilled (CacheAPI.storage_match (request_of origin "/") (caches w))) /\
  (forall root,
      CacheAPI.storage_match (request_of origin "/") (caches w) = Some root ->
      fst (onFetch origin URL_origin request w) = RespondWith (Fulfilled (Some root))).
Proof.
  intros Horigin Hmode _ Hnet.
  rewrite (onFetch_navigate origin URL_origin request w Horigin Hmode).
  cbv zeta. rewrite Hnet.
  destruct (CacheAPI.storage_match (request_of origin "/") (caches w)) as [r|].
  - split; [reflexivity|]. intros root [= <-]. reflexivity.
  - split; [reflexivity|]. discriminate.
Qed.

Lemma navigation_offline_fallback_witness :
  fst (onFetch site origin_of (navigate_to "/kontakt") (set_network offline installed))
    = RespondWith (Fulfilled (Some (mkResponse 200 "OK" (site ++ "/")))).
Proof.
  apply (proj2 (navigation_offline_fallback site origin_of (navigate_to "/kontakt")
                  (set_network offline installed)
                  eq_refl eq_refl eq_refl eq_refl)).
  vm_compute. reflexivity.
Defined.

(** C9. Every same-origin navigation request is answered with the cached
    root document when the root path has a cache entry, whatever URL was
    asked for and whatever the network would answer, and no network fetch
    is issued. *)
Theorem navigation_serves_cached_root
    (origin : string) (URL_origin : string -> string)
    (request : Request) (root : Response) (w : World) :
  URL_origin (url request) = origin ->
  mode request = "navigate" ->
  CacheAPI.storage_match (request_of origin "/") (caches w) = Some root ->
  fst (onFetch origin URL_origin request w) = RespondWith (Fulfilled (Some root)) /\
  net_calls (snd (onFetch origin URL_origin request w)) = net_calls w.
Proof.
  intros Horigin Hmode Hroot.
  rewrite (onFetch_navigate origin URL_origin request w Horigin Hmode).
  cbv zeta. rewrite Hroot. cbn [fst snd].
  split; [reflexivity|]. rewrite net_calls_emit. cbn. lia.
Qed.

Lemma navigation_serves_cached_root_witness :
  fst (onFetch site origin_of (navigate_to "/leistungen.html") installed)
    = RespondWith (Fulfilled (Some (mkResponse 200 "OK" (site ++ "/")))) /\
  net_calls (snd (onFetch site origin_of (navigate_to "/leistungen.html") installed))
    = net_calls installed.
Proof.
  apply (navigation_serves_cached_root site origin_of
           (navigate_to "/leistungen.html")
           (mkResponse 200 "OK" (site ++ "/")) installed);
    vm_compute; reflexivity.
Defined.

(** ** The dynamic cache limit *)

Lemma settle_idle fuel w : pending w = [] -> settle fuel w = w.
Proof. intros H. destruct fuel; simpl; [|rewrite H]; reflexivity. Qed.

Lemma settle_step fuel s net j js tr :
  settle (S fuel) (mkWorld s net (j :: js) tr) =
  settle fuel (mkWorld (fst (step_job j s)) net (js ++ snd (step_job j s)) tr).
Proof.
  simpl. unfold advance. simpl. destruct (step_job j s). reflexivity.
Qed.

Lemma ready_deletes name (l : list Request) :
  flat_map ready (map (fun key => JDelete name key JDone) l) =
  map (fun key => JDelete name key JDone) l.
Proof. induction l as [|k l IH]; simpl; [|rewrite IH]; reflexivity. Qed.

(** The deletes of [Promise.all] run one after the other. *)
Lemma settle_deletes name net tr (l : list Request) : forall fuel s,
  length l <= fuel ->
  settle fuel (mkWorld s net (map (fun key => JDelete name key JDone) l) tr) =
  mkWorld (fold_left (fun s key => CacheAPI.update name (CacheAPI.cache_delete key) s) l s)
          net [] tr.
Proof.
  induction l as [|k l IH]; intros fuel s Hfuel.
  - apply settle_idle. reflexivity.
  - destruct fuel as [|fuel]; [simpl in Hfuel; lia|].
    simpl map. rewrite settle_step. cbn [step_job fst snd ready].
    rewrite app_nil_r. apply IH. simpl in Hfuel. lia.
Qed.

Lemma get_app_missing name s s' :
  CacheAPI.has name s = false -> CacheAPI.get name (s ++ s') = CacheAPI.get name s'.
Proof.
  unfold CacheAPI.has. induction s as [|[n c] s IH]; simpl; [reflexivity|].
  destruct (String.eqb n name); simpl; [discriminate | exact IH].
Qed.

Lemma get_missing name s : CacheAPI.has name s = false -> CacheAPI.get name s = [].
Proof.
  intros H. rewrite <- (app_nil_r s). rewrite get_app_missing by exact H. reflexivity.
Qed.

Lemma get_open name s : CacheAPI.get name (CacheAPI.open name s) = CacheAPI.get name s.
Proof.
  unfold CacheAPI.open. destruct (CacheAPI.has name s) eqn:E; [reflexivity|].
  rewrite get_app_missing by exact E.
  rewrite (get_missing name s) by exact E. simpl.
  rewrite String.eqb_refl. reflexivity.
Qed.

Lemma open_open name s : CacheAPI.open name (CacheAPI.open name s) = CacheAPI.open name s.
Proof.
  unfold CacheAPI.open at 1. rewrite CacheFacts.has_open. reflexivity.
Qed.

Lemma has_update name f s :
  CacheAPI.has name (CacheAPI.update name f s) = CacheAPI.has name s.
Proof.
  destruct (CacheAPI.has name s) eqn:E.
  - apply CacheFacts.has_In. rewrite CacheFacts.keys_update.
    apply CacheFacts.has_In. exact E.
  - destruct (CacheAPI.has name (CacheAPI.update name f s)) eqn:E'; [|reflexivity].
    apply CacheFacts.has_In in E'. rewrite CacheFacts.keys_update in E'.
    apply CacheFacts.has_In in E'. congruence.
Qed.

Lemma get_deletes name (l : list Request) : forall s,
  CacheAPI.has name s = true ->
  CacheAPI.get name
    (fold_left (fun s key => CacheAPI.update name (CacheAPI.cache_delete key) s) l s) =
  fold_left (fun c key => CacheAPI.cache_delete key c) l (CacheAPI.get name s).
Proof.
  induction l as [|k l IH]; intros s Hhas; [reflexivity|].
  simpl. rewrite IH by (rewrite has_update; exact Hhas).
  rewrite CacheFacts.get_update by exact Hhas. reflexivity.
Qed.

Lemma length_cache_keys (c : Cache) : length (CacheAPI.cache_keys c) = length c.
Proof. apply length_map. Qed.

Lemma networkFirst_200 request r w :
  network w request = Some r -> status r = 200%N ->
  networkFirst request w =
    (Fulfilled r,
     add_pending (put_job DYNAMIC_CACHE request r)
       (add_pending (limitCacheSize DYNAMIC_CACHE MAX_DYNAMIC_CACHE_SIZE)
          (emit (EvOpen DYNAMIC_CACHE)
             (set_caches (CacheAPI.open DYNAMIC_CACHE (caches w))
                (emit (EvFetch request) w))))).
Proof.
  intros Hnet Hst. unfold networkFirst. unfold_promise.
  cbn -[limitCacheSize DYNAMIC_CACHE]. rewrite Hnet.
  cbn -[limitCacheSize DYNAMIC_CACHE]. rewrite Hst. reflexivity.
Qed.

Lemma dynamic_cycle_200 request r w :
  network w request = Some r -> status r = 200%N ->
  quiescent w ->
  length (CacheAPI.get DYNAMIC_CACHE (caches w)) <= S MAX_DYNAMIC_CACHE_SIZE ->
  quiescent (dynamic_cycle w request) /\
  CacheAPI.get DYNAMIC_CACHE (caches (dynamic_cycle w request)) =
    evict (CacheAPI.get DYNAMIC_CACHE (caches w))
          (CacheAPI.cache_put request r (CacheAPI.get DYNAMIC_CACHE (caches w))).
Proof.
  intros Hnet Hst Hidle Hlen. unfold dynamic_cycle.
  rewrite (networkFirst_200 _ _ _ Hnet Hst).
  destruct w as [s net jobs tr]. red in Hidle. cbn in Hidle. subst jobs.
  cbn [caches] in Hlen |- *. clear Hnet.
  unfold add_pending, emit, set_caches, limitCacheSize, put_job.
  cbn [caches network pending trace snd ready app].
  change 64 with (S (S (S (S 60)))).
  rewrite settle_step. cbn [step_job fst snd ready app].
  rewrite settle_step. cbn [step_job fst snd ready app].
  rewrite settle_step. cbn [step_job fst snd].
  rewrite open_open, get_open.
  set (c := CacheAPI.get DYNAMIC_CACHE s) in *.
  unfold evict. rewrite !length_cache_keys.
  destruct (MAX_DYNAMIC_CACHE_SIZE <? length c) eqn:Hover.
  - cbn [ready]. rewrite ready_deletes. cbn [app].
    rewrite settle_step. cbn [step_job fst snd ready].
    rewrite app_nil_r.
    rewrite settle_deletes.
    + split; [reflexivity|]. cbn [caches].
      rewrite get_deletes by (rewrite has_update; apply CacheFacts.has_open).
      rewrite CacheFacts.get_update by apply CacheFacts.has_open.
      rewrite get_open. reflexivity.
    + rewrite length_firstn. unfold MAX_DYNAMIC_CACHE_SIZE in *. lia.
  - cbn [ready app].
    rewrite settle_step. cbn [step_job fst snd ready app].
    rewrite settle_idle by reflexivity.
    split; [reflexivity|]. cbn [caches].
    rewrite CacheFacts.get_update by apply CacheFacts.has_open.
    rewrite get_open. apply Nat.ltb_ge in Hover.
    replace (length c - MAX_DYNAMIC_CACHE_SIZE) with 0 by lia. reflexivity.
Qed.

Lemma deletes_filter (l : list Request) : forall x : Cache,
  fold_left (fun x key => CacheAPI.cache_delete key x) l x = filter (survives l) x.
Proof.
  induction l as [|k l IH]; intros x.
  - simpl. symmetry. apply forallb_filter_id. apply forallb_forall. reflexivity.
  - simpl. rewrite IH. unfold CacheAPI.cache_delete, survives.
    induction x as [|e x IHx]; [reflexivity|].
    simpl. destruct (CacheAPI.request_matches k (fst e)); simpl.
    + exact IHx.
    + destruct (forallb _ l); rewrite IHx; reflexivity.
Qed.

Lemma all_GET_filter f c : all_GET c -> all_GET (filter f c).
Proof.
  unfold all_GET. rewrite !Forall_forall. intros H e He.
  apply filter_In in He. apply H. tauto.
Qed.

Lemma all_GET_put q r c : all_GET c -> all_GET (CacheAPI.cache_put q r c).
Proof.
  intros H. unfold CacheAPI.cache_put.
  destruct (String.eqb (method q) "GET") eqn:Hget; [|exact H].
  apply Forall_app. split.
  - apply all_GET_filter. exact H.
  - repeat constructor. apply String.eqb_eq. exact Hget.
Qed.

Lemma filter_none {A} (f : A -> bool) (l : list A) :
  (forall x, In x l -> f x = false) -> filter f l = [].
Proof.
  induction l as [|x l IH]; intros H; [reflexivity|].
  simpl. rewrite (H x (or_introl eq_refl)). apply IH.
  intros y Hy. apply H. right. exact Hy.
Qed.

(** None of the first [n] entries survives the deletes of the first [n]
    keys. *)
Lemma survivors_of_first_keys n (c : Cache) :
  all_GET c ->
  length (filter (survives (firstn n (CacheAPI.cache_keys c))) c) <= length c - n.
Proof.
  intros Hget. unfold CacheAPI.cache_keys. rewrite firstn_map.
  rewrite <- (firstn_skipn n c) at 2. rewrite filter_app, length_app.
  assert (Hfirst : filter (survives (map fst (firstn n c))) (firstn n c) = []).
  { assert (Hsub : forall e, In e (firstn n c) ->
                     survives (map fst (firstn n c)) e = false).
    { intros e He. unfold survives.
      destruct (forallb _ _) eqn:E; [|reflexivity].
      rewrite forallb_forall in E.
      specialize (E (fst e) (in_map fst _ _ He)).
      rewrite CacheFacts.request_matches_refl in E; [discriminate|].
      unfold all_GET in Hget. rewrite Forall_forall in Hget. apply Hget.
      rewrite <- (firstn_skipn n c). apply in_or_app. left. exact He. }
    apply filter_none. exact Hsub. }
  rewrite Hfirst. simpl.
  etransitivity; [apply filter_length_le|]. rewrite length_skipn. lia.
Qed.

Lemma filter_filter_length {A} (f g : A -> bool) (l : list A) :
  length (filter f (filter g l)) <= length (filter f l).
Proof.
  induction l as [|x l IH]; [reflexivity|].
  simpl. destruct (g x); simpl; destruct (f x); simpl; lia.
Qed.

(** One write and the eviction computed before it leave at most one entry
    more than the maximum. *)
Lemma evict_put_length q r (c : Cache) :
  all_GET c ->
  length (evict c (CacheAPI.cache_put q r c)) <= S MAX_DYNAMIC_CACHE_SIZE.
Proof.
  intros Hget. unfold evict. rewrite deletes_filter.
  set (n := length c - MAX_DYNAMIC_CACHE_SIZE).
  pose proof (survivors_of_first_keys n c Hget) as Hsurv.
  assert (Hc : length (filter (survives (firstn n (CacheAPI.cache_keys c))) c)
               <= MAX_DYNAMIC_CACHE_SIZE) by (subst n; lia).
  unfold CacheAPI.cache_put. destruct (String.eqb (method q) "GET").
  - rewrite filter_app, length_app. unfold CacheAPI.cache_delete.
    pose proof (filter_filter_length
                  (survives (firstn n (CacheAPI.cache_keys c)))
                  (fun e => negb (CacheAPI.request_matches q (fst e))) c).
    pose proof (filter_length_le (survives (firstn n (CacheAPI.cache_keys c)))
                                 [(q, r)]).
    simpl length in *. lia.
  - lia.
Qed.

Lemma networkFirst_not_200 request w :
  (forall r, network w request = Some r -> status r <> 200%N) ->
  caches (snd (networkFirst request w)) = caches w /\
  pending (snd (networkFirst request w)) = pending w.
Proof.
  intros H. unfold networkFirst. run_promise.
  destruct (network w request) as [r|] eqn:Hnet; cbn.
  - specialize (H r eq_refl). apply N.eqb_neq in H. rewrite H. cbn. tauto.
  - destruct (CacheAPI.storage_match request (caches w)); cbn; tauto.
Qed.

Lemma dynamic_cycle_inv w request :
  dynamic_inv w -> dynamic_inv (dynamic_cycle w request).
Proof.
  intros [Hidle [Hget Hlen]].
  destruct (network w request) as [r|] eqn:Hnet.
  - destruct (N.eq_dec (status r) 200) as [Hst|Hst].
    + destruct (dynamic_cycle_200 request r w Hnet Hst Hidle Hlen) as [Hidle' Hc].
      split; [exact Hidle'|]. rewrite Hc. split.
      * unfold evict. rewrite deletes_filter. apply all_GET_filter.
        apply all_GET_put. exact Hget.
      * apply evict_put_length. exact Hget.
    + destruct (networkFirst_not_200 request w) as [Hc Hp].
      { intros r' Hr'. congruence. }
      unfold dynamic_cycle. rewrite settle_idle by congruence.
      unfold dynamic_inv, quiescent. rewrite Hc, Hp. auto.
  - destruct (networkFirst_not_200 request w) as [Hc Hp].
    { intros r' Hr'. congruence. }
    unfold dynamic_cycle. rewrite settle_idle by congruence.
    unfold dynamic_inv, quiescent. rewrite Hc, Hp. auto.
Qed.

(** However many requests network-first serves, one cycle after the
    other, the DYNAMIC namespace never holds more than one entry above
    [MAX_DYNAMIC_CACHE_SIZE]. *)
Lemma dynamic_cache_bound (requests : list Request) : forall w,
  dynamic_inv w ->
  length (CacheAPI.get DYNAMIC_CACHE (caches (fold_left dynamic_cycle requests w)))
    <= S MAX_DYNAMIC_CACHE_SIZE.
Proof.
  induction requests as [|q qs IH]; intros w Hinv.
  - apply Hinv.
  - simpl. apply IH. apply dynamic_cycle_inv. exact Hinv.
Qed.

Lemma dynamic_inv_fresh net : dynamic_inv (fresh net).
Proof.
  repeat split; [constructor | simpl; unfold MAX_DYNAMIC_CACHE_SIZE; lia].
Qed.

(** C1. After 51 distinct dynamic URLs were fetched through network-first,
    each cycle run until the event loop is idle, the DYNAMIC namespace
    holds 51 entries, one more than [MAX_DYNAMIC_CACHE_SIZE]. *)
Theorem dynamic_cache_exceeds_maximum :
  quiescent (after_writes 51) /\
  length (CacheAPI.get DYNAMIC_CACHE (caches (after_writes 51))) = 51 /\
  ~ length (CacheAPI.get DYNAMIC_CACHE (caches (after_writes 51)))
      <= MAX_DYNAMIC_CACHE_SIZE.
Proof.
  assert (H : length (CacheAPI.get DYNAMIC_CACHE (caches (after_writes 51))) = 51)
    by (vm_compute; reflexivity).
  split; [vm_compute; reflexivity|]. split; [exact H|].
  rewrite H. unfold MAX_DYNAMIC_CACHE_SIZE. lia.
Qed.

(** C2. After 51 distinct dynamic URLs were written the very first one is
    still in the DYNAMIC namespace, next to the 50 written after it. *)
Theorem first_key_survives_51_writes :
  CacheAPI.cache_keys (CacheAPI.get DYNAMIC_CACHE (caches (after_writes 51)))
    = map api (seq 0 51) /\
  CacheAPI.cache_match (api 0) (CacheAPI.get DYNAMIC_CACHE (caches (after_writes 51)))
    = Some (mkResponse 200 "OK" (url (api 0))).
Proof. split; vm_compute; reflexivity. Qed.

(** Eviction itself is oldest-first: the 52nd write pushes the first key
    out, the 51 keys written after it stay. *)
Lemma first_key_gone_after_52_writes :
  CacheAPI.cache_keys (CacheAPI.get DYNAMIC_CACHE (caches (after_writes 52)))
    = map api (seq 1 51) /\
  CacheAPI.cache_match (api 0) (CacheAPI.get DYNAMIC_CACHE (caches (after_writes 52)))
    = None.
Proof. split; vm_compute; reflexivity. Qed.

(** Run once more after the 51st write, [limitCacheSize] brings the
    namespace back to the maximum and drops the first key. *)
Lemma limit_after_write_restores_maximum :
  let w := settle 64 (add_pending
                        (limitCacheSize DYNAMIC_CACHE MAX_DYNAMIC_CACHE_SIZE)
                        (after_writes 51)) in
  quiescent w /\
  CacheAPI.cache_keys (CacheAPI.get DYNAMIC_CACHE (caches w)) = map api (seq 1 50).
Proof. split; vm_compute; reflexivity. Qed.

(** The overflow hangs on the order in which the two unawaited calls take
    effect: when every put is written before the keys are listed, 51
    writes leave 50 entries and the first key is gone. *)
Lemma write_first_schedule_keeps_maximum :
  quiescent (after_writes_write_first 51) /\
  CacheAPI.cache_keys
    (CacheAPI.get DYNAMIC_CACHE (caches (after_writes_write_first 51)))
    = map api (seq 1 50).
Proof. split; vm_compute; reflexivity. Qed.

(** * More of the worker *)

(** ** The static-asset classifier *)






(** ** The strategies *)

Lemma cacheFirst_cases request w :
  cacheFirst request w =
    match CacheAPI.storage_match request (caches w) with
    | Some cached => (Fulfilled cached, emit (EvMatch request) w)
    | None =>
        match network w request with
        | None =>
            (Fulfilled (new_Response "Offline content not available"
                                     503 "Service Unavailable"),
             emit (EvError "Cache-first strategy failed:")
                  (emit (EvFetch request) (emit (EvMatch request) w)))
        | Some r =>
            if (status r =? 200)%N then
              (Fulfilled r,
               add_pending (put_job STATIC_CACHE request r)
                 (emit (EvOpen STATIC_CACHE)
                    (set_caches (CacheAPI.open STATIC_CACHE (caches w))
                       (emit (EvFetch request) (emit (EvMatch request) w)))))
            else (Fulfilled r, emit (EvFetch request) (emit (EvMatch request) w))
        end
    end.
Proof.
  unfold cacheFirst. unfold_promise. cbn -[STATIC_CACHE].
  destruct (CacheAPI.storage_match request (caches w)); [reflexivity|].
  cbn -[STATIC_CACHE]. destruct (network w request) as [r|]; [|reflexivity].
  cbn -[STATIC_CACHE]. destruct (status r =? 200)%N; reflexivity.
Qed.

Lemma networkFirst_cases request w :
  networkFirst request w =
    match network w request with
    | Some r =>
        if (status r =? 200)%N then
          (Fulfilled r,
           add_pending (put_job DYNAMIC_CACHE request r)
             (add_pending (limitCacheSize DYNAMIC_CACHE MAX_DYNAMIC_CACHE_SIZE)
                (emit (EvOpen DYNAMIC_CACHE)
                   (set_caches (CacheAPI.open DYNAMIC_CACHE (caches w))
                      (emit (EvFetch request) w)))))
        else (Fulfilled r, emit (EvFetch request) w)
    | None =>
        (Fulfilled
           match CacheAPI.storage_match request (caches w) with
           | Some cached => cached
           | None => new_Response "Content not available offline"
                                  503 "Service Unavailable"
           end,
         emit (EvMatch request)
              (emit (EvLog "Network failed, trying cache:")
                    (emit (EvFetch request) w)))
    end.
Proof.
  unfold networkFirst. unfold_promise. cbn -[limitCacheSize DYNAMIC_CACHE].
  destruct (network w request) as [r|]; cbn -[limitCacheSize DYNAMIC_CACHE].
  - destruct (status r =? 200)%N; reflexivity.
  - destruct (CacheAPI.storage_match request (caches w)); reflexivity.
Qed.

Lemma cacheFirst_fulfilled request w :
  exists r, fst (cacheFirst request w) = Fulfilled r.
Proof.
  rewrite cacheFirst_cases.
  destruct (CacheAPI.storage_match request (caches w)); [eexists; reflexivity|].
  destruct (network w request) as [r|]; [|eexists; reflexivity].
  destruct (status r =? 200)%N; eexists; reflexivity.
Qed.

Lemma networkFirst_fulfilled request w :
  exists r, fst (networkFirst request w) = Fulfilled r.
Proof.
  rewrite networkFirst_cases.
  destruct (network w request) as [r|]; [|eexists; reflexivity].
  destruct (status r =? 200)%N; eexists; reflexivity.
Qed.

(** X2. Neither strategy ever rejects: whatever the cache holds and
    whatever the network does, the caller gets a response. *)
Theorem strategies_always_answer (request : Request) (w : World) :
  (exists r, fst (cacheFirst request w) = Fulfilled r) /\
  (exists r, fst (networkFirst request w) = Fulfilled r).
Proof.
  split; [apply cacheFirst_fulfilled | apply networkFirst_fulfilled].
Qed.

Lemma net_calls_set_caches s w : net_calls (set_caches s w) = net_calls w.
Proof. reflexivity. Qed.

Lemma net_calls_add_pending j w : net_calls (add_pending j w) = net_calls w.
Proof. reflexivity. Qed.

(** X3. No strategy retries: network-first issues exactly one fetch per
    request, cache-first none on a hit and exactly one on a miss. *)
Theorem strategies_fetch_once (request : Request) (w : World) :
  net_calls (snd (networkFirst request w)) = S (net_calls w) /\
  net_calls (snd (cacheFirst request w)) =
    match CacheAPI.storage_match request (caches w) with
    | Some _ => net_calls w
    | None => S (net_calls w)
    end.
Proof.
  rewrite cacheFirst_cases, networkFirst_cases. split.
  - destruct (network w request) as [r|]; [destruct (status r =? 200)%N|];
      cbn [snd];
      rewrite ?net_calls_add_pending, ?net_calls_emit, ?net_calls_set_caches,
              ?net_calls_emit; cbn; lia.
  - destruct (CacheAPI.storage_match request (caches w)).
    + cbn [snd]. rewrite net_calls_emit. cbn. lia.
    + destruct (network w request) as [r|]; [destruct (status r =? 200)%N|];
        cbn [snd];
        rewrite ?net_calls_add_pending, ?net_calls_emit, ?net_calls_set_caches,
                ?net_calls_emit; cbn; lia.
Qed.

(** X4. Cache-first leaves the cache store alone, and starts nothing,
    unless it misses and the network answers 200: a hit is never
    refreshed, and an answer with another status is handed back
    unchanged. *)
Theorem cacheFirst_writes_only_on_200 (request : Request) (w : World) :
  (CacheAPI.storage_match request (caches w) <> None \/
   network w request = None \/
   (exists r, network w request = Some r /\ status r <> 200%N)) ->
  caches (snd (cacheFirst request w)) = caches w /\
  pending (snd (cacheFirst request w)) = pending w /\
  (forall r, CacheAPI.storage_match request (caches w) = None ->
             network w request = Some r ->
             fst (cacheFirst request w) = Fulfilled r).
Proof.
  intros H. rewrite cacheFirst_cases.
  destruct (CacheAPI.storage_match request (caches w)) as [cached|].
  - repeat split. discriminate.
  - destruct (network w request) as [r|].
    + destruct H as [H|[H|[r' [Hr' Hst]]]]; [congruence | discriminate |].
      injection Hr' as <-. apply N.eqb_neq in Hst. rewrite Hst.
      repeat split. intros r0 _ [= <-]. reflexivity.
    + repeat split. discriminate.
Qed.

Lemma cacheFirst_writes_only_on_200_witness :
  caches (snd (cacheFirst (get_request "/logo.png") (fresh not_found))) = [] /\
  fst (cacheFirst (get_request "/logo.png") (fresh not_found))
    = Fulfilled (mkResponse 404 "Not Found" "gone").
Proof.
  destruct (cacheFirst_writes_only_on_200 (get_request "/logo.png") (fresh not_found))
    as [Hcaches [_ Hres]].
  - right. right. eexists. split; [reflexivity | discriminate].
  - split; [exact Hcaches | apply Hres; reflexivity].
Defined.

(** ** The fetch listener *)

(** X5. The listener steps in exactly for the requests of its own origin;
    a request to another origin is left to the browser, with no cache
    lookup and no fetch, whatever its mode. *)
Theorem onFetch_intercepts_same_origin
    (origin : string) (URL_origin : string -> string)
    (request : Request) (w : World) :
  (fst (onFetch origin URL_origin request w) = NotIntercepted <->
   URL_origin (url request) <> origin) /\
  (URL_origin (url request) <> origin ->
   snd (onFetch origin URL_origin request w) = w).
Proof.
  unfold onFetch, respondWith.
  destruct (String.eqb (URL_origin (url request)) origin) eqn:E; cbn [negb].
  - apply String.eqb_eq in E. split; [|congruence].
    split; [|congruence]. intros H. exfalso. revert H.
    destruct (String.eqb (mode request) "navigate").
    + match goal with |- context [try_catch ?p ?h w] =>
        destruct (try_catch p h w) as [[?|?] ?] end; discriminate.
    + destruct (isStaticAsset (url request)).
      * destruct (cacheFirst request w) as [[?|?] ?]; discriminate.
      * destruct (networkFirst request w) as [[?|?] ?]; discriminate.
  - apply String.eqb_neq in E. repeat split; auto.
Qed.

Lemma onFetch_intercepts_same_origin_witness :
  onFetch site origin_of (mkRequest "https://fonts.example.org/a.css" "GET" "no-cors")
          installed
  = (NotIntercepted, installed).
Proof.
  pose proof (onFetch_intercepts_same_origin site origin_of
                (mkRequest "https://fonts.example.org/a.css" "GET" "no-cors")
                installed) as [Hfst Hsnd].
  assert (Hother : origin_of (url (mkRequest "https://fonts.example.org/a.css"
                                             "GET" "no-cors")) <> site)
    by (vm_compute; discriminate).
  apply (proj2 Hfst) in Hother as Hni. apply Hsnd in Hother.
  destruct (onFetch _ _ _ _) as [res w']. cbn in *. subst. reflexivity.
Defined.

(** X6. Every same-origin request that is not a navigation is answered
    with a response: the promise handed to [respondWith] is fulfilled and
    never with [undefined]. *)
Theorem onFetch_resource_always_answered
    (origin : string) (URL_origin : string -> string)
    (request : Request) (w : World) :
  URL_origin (url request) = origin ->
  mode request <> "navigate" ->
  exists r, fst (onFetch origin URL_origin request w) = RespondWith (Fulfilled (Some r)).
Proof.
  intros Horigin Hmode. unfold onFetch, respondWith.
  rewrite Horigin, String.eqb_refl. cbn [negb].
  apply String.eqb_neq in Hmode. rewrite Hmode.
  destruct (cacheFirst_fulfilled request w) as [r1 H1].
  destruct (networkFirst_fulfilled request w) as [r2 H2].
  destruct (isStaticAsset (url request)).
  - destruct (cacheFirst request w) as [res w']. cbn in H1. subst res.
    exists r1. reflexivity.
  - destruct (networkFirst request w) as [res w']. cbn in H2. subst res.
    exists r2. reflexivity.
Qed.

Lemma onFetch_resource_always_answered_witness :
  exists r, fst (onFetch site origin_of (get_request "/api/termine") (fresh offline))
            = RespondWith (Fulfilled (Some r)).
Proof.
  apply (onFetch_resource_always_answered site origin_of
           (get_request "/api/termine") (fresh offline)).
  - reflexivity.
  - discriminate.
Defined.

(** X7. A navigation is never written to the cache: whatever the network
    answers, the listener leaves the cache store as it was and starts no
    put. *)
Theorem navigation_never_caches
    (origin : string) (URL_origin : string -> string)
    (request : Request) (w : World) :
  URL_origin (url request) = origin ->
  mode request = "navigate" ->
  caches (snd (onFetch origin URL_origin request w)) = caches w /\
  pending (snd (onFetch origin URL_origin request w)) = pending w.
Proof.
  intros Horigin Hmode.
  rewrite (onFetch_navigate origin URL_origin request w Horigin Hmode).
  cbv zeta.
  destruct (CacheAPI.storage_match (request_of origin "/") (caches w));
    [split; reflexivity|].
  destruct (network w request); split; reflexivity.
Qed.

Lemma navigation_never_caches_witness :
  caches (snd (onFetch site origin_of (navigate_to "/kontakt") (fresh online))) = [].
Proof.
  exact (proj1 (navigation_never_caches site origin_of (navigate_to "/kontakt")
                  (fresh online) eq_refl eq_refl)).
Defined.

(** X8. A navigation while the root path has no cache entry goes to the
    network for the requested page: its answer is passed on whatever its
    status, and when the fetch fails the promise handed to [respondWith]
    is fulfilled with [undefined], not with a response. *)
Theorem navigation_without_cached_root
    (origin : string) (URL_origin : string -> string)
    (request : Request) (w : World) :
  URL_origin (url request) = origin ->
  mode request = "navigate" ->
  CacheAPI.storage_match (request_of origin "/") (caches w) = None ->
  fst (onFetch origin URL_origin request w) =
    RespondWith (Fulfilled (network w request)) /\
  net_calls (snd (onFetch origin URL_origin request w)) = S (net_calls w).
Proof.
  intros Horigin Hmode Hroot.
  rewrite (onFetch_navigate origin URL_origin request w Horigin Hmode).
  cbv zeta. rewrite Hroot.
  destruct (network w request); cbn [fst snd];
    rewrite !net_calls_emit; cbn; split; try reflexivity; lia.
Qed.

Lemma navigation_without_cached_root_witness :
  fst (onFetch site origin_of (navigate_to "/kontakt") (fresh offline))
    = RespondWith (Fulfilled None) /\
  fst (onFetch site origin_of (navigate_to "/kontakt") (fresh not_found))
    = RespondWith (Fulfilled (Some (mkResponse 404 "Not Found" "gone"))).
Proof.
  split.
  - exact (proj1 (navigation_without_cached_root site origin_of
                    (navigate_to "/kontakt") (fresh offline)
                    eq_refl eq_refl eq_refl)).
  - exact (proj1 (navigation_without_cached_root site origin_of
                    (navigate_to "/kontakt") (fresh not_found)
                    eq_refl eq_refl eq_refl)).
Defined.

(** ** Install and activate *)

Lemma append_inj_r (p a b : string) : (p ++ a = p ++ b)%string -> a = b.
Proof.
  induction p as [|c p IH]; simpl; intros H; [exact H|].
  injection H as H. apply IH. exact H.
Qed.

Lemma manifest_urls_distinct origin :
  NoDup (map url (map (request_of origin) STATIC_ASSETS)).
Proof.
  rewrite map_map. cbn [url request_of].
  assert (Hnodup : NoDup STATIC_ASSETS).
  { unfold STATIC_ASSETS.
    repeat (constructor; [simpl; intuition discriminate|]). constructor. }
  induction Hnodup as [|a l Ha Hl IH]; simpl; constructor; [|exact IH].
  intros Hin. apply in_map_iff in Hin. destruct Hin as [b [Hb Hin]].
  apply append_inj_r in Hb. subst b. contradiction.
Qed.

Lemma fetch_all_answers net qs entries :
  fetch_all net qs = Some entries ->
  forall q r, In (q, r) entries -> net q = Some r.
Proof.
  revert entries. induction qs as [|q0 qs IH]; intros entries H q r Hin.
  - injection H as <-. destruct Hin.
  - simpl in H. destruct (net q0) as [r0|] eqn:Hq0; [|discriminate].
    destruct (fetch_all net qs) as [rest|]; [|discriminate].
    destruct (addable r0); [|discriminate].
    injection H as <-. destruct Hin as [[= <- <-]|Hin]; [exact Hq0|].
    apply (IH rest eq_refl). exact Hin.
Qed.

(** A put under another URL does not change what a request matches. *)
Lemma cache_match_put_other q e r c :
  url e <> url q ->
  CacheAPI.cache_match q (CacheAPI.cache_put e r c) = CacheAPI.cache_match q c.
Proof.
  intros Hurl. unfold CacheAPI.cache_put.
  destruct (String.eqb (method e) "GET"); [|reflexivity].
  assert (Hqe : CacheAPI.request_matches q e = false).
  { unfold CacheAPI.request_matches.
    assert (String.eqb (url q) (url e) = false) as ->
      by (apply String.eqb_neq; congruence).
    apply andb_false_r. }
  rewrite CacheFacts.cache_match_app.
  assert (Hdel : CacheAPI.cache_match q (CacheAPI.cache_delete e c)
                 = CacheAPI.cache_match q c).
  { unfold CacheAPI.cache_delete.
    induction c as [|[k v] c IH]; [reflexivity|]. simpl.
    destruct (CacheAPI.request_matches e k) eqn:Hek; simpl.
    - assert (CacheAPI.request_matches q k = false) as ->; [|exact IH].
      unfold CacheAPI.request_matches in *.
      apply andb_prop in Hek. destruct Hek as [_ Hek].
      apply String.eqb_eq in Hek.
      assert (String.eqb (url q) (url k) = false) as ->
        by (apply String.eqb_neq; congruence).
      apply andb_false_r.
    - destruct (CacheAPI.request_matches q k); [reflexivity | exact IH]. }
  rewrite Hdel. simpl. rewrite Hqe.
  destruct (CacheAPI.cache_match q c); reflexivity.
Qed.

Lemma cache_match_puts_exact (entries : list (Request * Response)) :
  NoDup (map url (map fst entries)) ->
  forall c q r,
  In (q, r) entries -> method q = "GET" ->
  CacheAPI.cache_match q
    (fold_left (fun c e => CacheAPI.cache_put (fst e) (snd e) c) entries c) = Some r.
Proof.
  induction entries as [|[k v] entries IH]; intros Hnodup c q r Hin Hget;
    [destruct Hin|].
  simpl in Hnodup. inversion Hnodup as [|u us Hk Hrest]; subst.
  simpl. destruct Hin as [[= -> ->]|Hin].
  - clear IH Hnodup Hrest.
    assert (Hstart : CacheAPI.cache_match q (CacheAPI.cache_put q r c) = Some r)
      by (apply CacheFacts.cache_match_put; exact Hget).
    revert Hstart. generalize (CacheAPI.cache_put q r c) as c0.
    induction entries as [|[k v] entries IH]; intros c0 Hstart; [exact Hstart|].
    simpl. apply IH.
    + intros Hin. apply Hk. right. exact Hin.
    + rewrite cache_match_put_other; [exact Hstart|].
      simpl. intros Heq. apply Hk. left. exact Heq.
  - apply IH; assumption.
Qed.

Lemma fold_emit_caches (qs : list Request) : forall w0,
  caches (fold_left (fun w q => emit (EvFetch q) w) qs w0) = caches w0.
Proof.
  induction qs as [|q qs IH]; intros w0; [reflexivity|].
  simpl. rewrite IH. reflexivity.
Qed.

Lemma fold_emit_trace (qs : list Request) : forall w0,
  trace (fold_left (fun w q => emit (EvFetch q) w) qs w0) =
  trace w0 ++ map EvFetch qs.
Proof.
  induction qs as [|q qs IH]; intros w0; simpl; [rewrite app_nil_r; reflexivity|].
  rewrite IH. cbn [trace emit]. rewrite <- app_assoc. reflexivity.
Qed.

Lemma install_success_world origin w entries :
  fetch_all (network w) (map (request_of origin) STATIC_ASSETS) = Some entries ->
  fst (onInstall origin w) = Fulfilled tt /\
  CacheAPI.get STATIC_CACHE (caches (snd (onInstall origin w))) =
    fold_left (fun c e => CacheAPI.cache_put (fst e) (snd e) c) entries
              (CacheAPI.get STATIC_CACHE (caches w)) /\
  CacheAPI.has STATIC_CACHE (caches (snd (onInstall origin w))) = true /\
  trace (snd (onInstall origin w)) =
    trace w ++
    [EvLog "Service Worker installing..."; EvOpen STATIC_CACHE;
     EvLog "Caching static assets..."; EvAddAll STATIC_CACHE] ++
    map EvFetch (map (request_of origin) STATIC_ASSETS) ++ [EvSkipWaiting].
Proof.
  intros Hall.
  unfold onInstall, cache_addAll, skipWaiting. unfold_promise.
  cbn -[fetch_all STATIC_ASSETS STATIC_CACHE].
  rewrite Hall. cbn -[STATIC_ASSETS STATIC_CACHE].
  rewrite fold_emit_caches, fold_emit_trace, update_fold.
  cbn [caches trace emit set_caches].
  split; [reflexivity|]. split; [|split].
  - rewrite CacheFacts.get_update by apply CacheFacts.has_open.
    rewrite get_open. reflexivity.
  - match goal with
    | |- existsb _ ?s = true => change (CacheAPI.has STATIC_CACHE s = true)
    end.
    rewrite has_update. apply CacheFacts.has_open.
  - cbn [trace emit]. rewrite <- !app_assoc. reflexivity.
Qed.

(** X9. When every manifest URL can be fetched, the install promise is
    fulfilled, [skipWaiting] is called after one fetch per manifest URL,
    and the STATIC namespace answers each manifest URL with exactly the
    response this install fetched for it, whatever it held before. *)
Theorem install_success_refreshes_manifest (origin : string) (w : World) :
  (forall asset, In asset STATIC_ASSETS ->
                 ~ unfetchable (network w) (request_of origin asset)) ->
  fst (onInstall origin w) = Fulfilled tt /\
  trace (snd (onInstall origin w)) =
    trace w ++
    [EvLog "Service Worker installing..."; EvOpen STATIC_CACHE;
     EvLog "Caching static assets..."; EvAddAll STATIC_CACHE] ++
    map EvFetch (map (request_of origin) STATIC_ASSETS) ++ [EvSkipWaiting] /\
  (forall asset, In asset STATIC_ASSETS ->
     CacheAPI.cache_match (request_of origin asset)
       (CacheAPI.get STATIC_CACHE (caches (snd (onInstall origin w))))
     = network w (request_of origin asset)).
Proof.
  intros Hnet.
  destruct (fetch_all_fetchable (network w) (map (request_of origin) STATIC_ASSETS))
    as [entries Hall].
  { intros q Hq. apply in_map_iff in Hq. destruct Hq as [a [<- Ha]].
    apply Hnet. exact Ha. }
  destruct (install_success_world origin w entries Hall)
    as [Hres [Hget [_ Htrace]]].
  split; [exact Hres|]. split; [exact Htrace|].
  intros asset Hin. rewrite Hget.
  pose proof (fetch_all_keys _ _ _ Hall) as Hkeys.
  assert (Hq : In (request_of origin asset) (map fst entries)).
  { rewrite Hkeys. apply in_map. exact Hin. }
  apply in_map_iff in Hq. destruct Hq as [[q r] [Hfst Hentry]].
  simpl in Hfst. subst q.
  rewrite (fetch_all_answers _ _ _ Hall _ _ Hentry).
  apply cache_match_puts_exact; [|exact Hentry|reflexivity].
  rewrite Hkeys. apply manifest_urls_distinct.
Qed.

Lemma install_success_refreshes_manifest_witness :
  CacheAPI.cache_match (request_of site "/script.js")
    (CacheAPI.get STATIC_CACHE (caches (snd (onInstall site upgraded))))
  = Some (mkResponse 200 "OK" (site ++ "/script.js")).
Proof.
  assert (H : forall asset, In asset STATIC_ASSETS ->
                ~ unfetchable (network upgraded) (request_of site asset)).
  { intros asset _. unfold unfetchable. cbn. discriminate. }
  destruct (install_success_refreshes_manifest site upgraded H) as [_ [_ Hmatch]].
  apply (Hmatch "/script.js"). simpl. tauto.
Defined.




Lemma promise_all_delete_old_net names : forall w,
  net_calls (snd (promise_all delete_old_cache names w)) = net_calls w.
Proof.
  induction names as [|name names IH]; intros w; [reflexivity|].
  cbn [promise_all]. unfold await.
  assert (Hone : fst (delete_old_cache name w) = Fulfilled tt /\
                 net_calls (snd (delete_old_cache name w)) = net_calls w).
  { unfold delete_old_cache.
    destruct (negb (String.eqb name STATIC_CACHE) &&
              negb (String.eqb name DYNAMIC_CACHE)); split; try reflexivity.
    unfold caches_delete. run_promise. unfold net_calls. cbn.
    rewrite !filter_app. cbn. rewrite !app_nil_r. reflexivity. }
  destruct Hone as [Hres Hnet].
  destruct (delete_old_cache name w) as [r w1]. cbn in Hres, Hnet. subst r.
  rewrite IH. exact Hnet.
Qed.

Lemma filter_idem {A} (f : A -> bool) (l : list A) :
  filter f (filter f l) = filter f l.
Proof.
  induction l as [|x l IH]; [reflexivity|].
  simpl. destruct (f x) eqn:E; simpl; [rewrite E, IH|]; auto.
Qed.

(** X11. Activation works on the cache store only and is idempotent: it
    issues no fetch, keeps the pending jobs, and a second activation
    finds nothing left to delete. *)
Theorem activate_idempotent (w : World) :
  net_calls (snd (onActivate w)) = net_calls w /\
  pending (snd (onActivate w)) = pending w /\
  caches (snd (onActivate (snd (onActivate w)))) = caches (snd (onActivate w)).
Proof.
  split; [|split].
  - unfold onActivate, clients_claim, caches_keys. run_promise.
    pose proof (promise_all_delete_old_net (CacheAPI.keys (caches w))
                  (emit EvKeys (emit (EvLog "Service Worker activating...") w)))
      as Hnet.
    pose proof (promise_all_delete_old (CacheAPI.keys (caches w))
                  (emit EvKeys (emit (EvLog "Service Worker activating...") w)))
      as [Hres _].
    destruct (promise_all delete_old_cache _ _) as [r w1].
    cbn in Hres. subst r. unfold net_calls in *. cbn in *.
    rewrite !filter_app, !length_app in *. cbn in *. lia.
  - unfold onActivate, clients_claim, caches_keys. run_promise.
    assert (Hpend : forall names w0,
              pending (snd (promise_all delete_old_cache names w0)) = pending w0).
    { induction names as [|name names IH]; intros w0; [reflexivity|].
      cbn [promise_all]. unfold await.
      assert (Hone : fst (delete_old_cache name w0) = Fulfilled tt /\
                     pending (snd (delete_old_cache name w0)) = pending w0).
      { unfold delete_old_cache.
        destruct (negb (String.eqb name STATIC_CACHE) &&
                  negb (String.eqb name DYNAMIC_CACHE)); split; reflexivity. }
      destruct Hone as [Hres Hp].
      destruct (delete_old_cache name w0) as [r w1]. cbn in Hres, Hp. subst r.
      rewrite IH. exact Hp. }
    pose proof (Hpend (CacheAPI.keys (caches w))
                  (emit EvKeys (emit (EvLog "Service Worker activating...") w)))
      as Hp.
    pose proof (promise_all_delete_old (CacheAPI.keys (caches w))
                  (emit EvKeys (emit (EvLog "Service Worker activating...") w)))
      as [Hres _].
    destruct (promise_all delete_old_cache _ _) as [r w1].
    cbn in Hres, Hp. subst r. cbn. exact Hp.
  - rewrite (proj2 (onActivate_caches (snd (onActivate w)))).
    rewrite (proj2 (onActivate_caches w)). apply filter_idem.
Qed.

(** X12. Install followed by activation leaves the worker ready for
    offline use: only namespaces with a current name are left, and every
    manifest URL still has a cache entry. *)
Theorem install_then_activate (origin : string) (w : World) :
  (forall asset, In asset STATIC_ASSETS ->
                 ~ unfetchable (network w) (request_of origin asset)) ->
  let w' := snd (onActivate (snd (onInstall origin w))) in
  (forall name, In name (CacheAPI.keys (caches w')) ->
                name = STATIC_CACHE \/ name = DYNAMIC_CACHE) /\
  In STATIC_CACHE (CacheAPI.keys (caches w')) /\
  (forall asset, In asset STATIC_ASSETS ->
     CacheAPI.storage_match (request_of origin asset) (caches w') <> None).
Proof.
  intros Hnet w'.
  destruct (fetch_all_fetchable (network w) (map (request_of origin) STATIC_ASSETS))
    as [entries Hall].
  { intros q Hq. apply in_map_iff in Hq. destruct Hq as [a [<- Ha]].
    apply Hnet. exact Ha. }
  destruct (install_success_world origin w entries Hall) as [_ [Hget [Hhas _]]].
  assert (Hcaches : caches w' =
            filter (fun e => current (fst e)) (caches (snd (onInstall origin w))))
    by apply onActivate_caches.
  assert (Hstatic : current STATIC_CACHE = true)
    by (apply current_spec; left; reflexivity).
  split; [|split].
  - intros name Hin. rewrite Hcaches, keys_filter in Hin.
    apply filter_In in Hin. apply current_spec. tauto.
  - rewrite Hcaches, keys_filter. apply filter_In. split; [|exact Hstatic].
    apply CacheFacts.has_In. exact Hhas.
  - intros asset Hin. apply (storage_match_get _ STATIC_CACHE).
    rewrite Hcaches, get_filter_kept by exact Hstatic.
    rewrite Hget. apply cache_match_puts; [reflexivity|]. left.
    rewrite (fetch_all_keys _ _ _ Hall). apply in_map. exact Hin.
Qed.

Lemma install_then_activate_witness :
  CacheAPI.keys (caches (snd (onActivate (snd (onInstall site upgraded)))))
    = [STATIC_CACHE] /\
  CacheAPI.storage_match (request_of site "/")
    (caches (snd (onActivate (snd (onInstall site upgraded))))) <> None.
Proof.
  assert (H : forall asset, In asset STATIC_ASSETS ->
                ~ unfetchable (network upgraded) (request_of site asset)).
  { intros asset _. unfold unfetchable. cbn. discriminate. }
  destruct (install_then_activate site upgraded H) as [_ [_ Hmatch]].
  split; [vm_compute; reflexivity|].
  apply (Hmatch "/"). simpl. tauto.
Defined.

(** ** The dynamic cache *)



Lemma survives_cons k l e :
  survives (k :: l) e = negb (CacheAPI.request_matches k (fst e)) && survives l e.
Proof. reflexivity. Qed.

(** With distinct URLs the deletes of the first [n] keys remove the first
    [n] entries and nothing else. *)
Lemma survivors_are_the_rest (c : Cache) : forall n,
  all_GET c -> distinct_urls c ->
  filter (survives (firstn n (CacheAPI.cache_keys c))) c = skipn n c.
Proof.
  unfold distinct_urls, CacheAPI.cache_keys.
  induction c as [|[k v] c IH]; intros n Hget Hurls.
  - destruct n; reflexivity.
  - destruct n as [|n].
    + simpl firstn. apply forallb_filter_id. apply forallb_forall. reflexivity.
    + inversion Hget as [|e es Hk Hget']; subst.
      simpl in Hurls. inversion Hurls as [|u us Hfresh Hurls']; subst.
      simpl in Hk. cbn [map firstn fst skipn filter].
      rewrite survives_cons. cbn [fst].
      rewrite CacheFacts.request_matches_refl by exact Hk. cbn [negb andb].
      rewrite <- (IH n Hget' Hurls').
      apply filter_ext_in. intros [k' v'] Hin.
      rewrite survives_cons. cbn [fst].
      assert (CacheAPI.request_matches k k' = false) as ->; [|reflexivity].
      unfold CacheAPI.request_matches.
      assert (String.eqb (url k) (url k') = false) as ->; [|apply andb_false_r].
      apply String.eqb_neq. intros Heq. apply Hfresh. rewrite Heq.
      apply in_map. apply (in_map fst) in Hin. exact Hin.
Qed.

(** X14. [limitCacheSize] run to its end keeps the [size] newest entries
    of the cache, in their order, and deletes the older ones; a cache
    within the limit is left as it is. *)
Theorem limitCacheSize_keeps_newest
    (cacheName : string) (size fuel : nat) (w : World) :
  quiescent w ->
  all_GET (CacheAPI.get cacheName (caches w)) ->
  distinct_urls (CacheAPI.get cacheName (caches w)) ->
  2 + (length (CacheAPI.get cacheName (caches w)) - size) <= fuel ->
  quiescent (limit_run fuel cacheName size w) /\
  CacheAPI.get cacheName (caches (limit_run fuel cacheName size w)) =
    skipn (length (CacheAPI.get cacheName (caches w)) - size)
          (CacheAPI.get cacheName (caches w)) /\
  length (CacheAPI.get cacheName (caches (limit_run fuel cacheName size w))) =
    Nat.min (length (CacheAPI.get cacheName (caches w))) size.
Proof.
  intros Hidle Hget Hurls Hfuel.
  destruct w as [s net jobs tr]. red in Hidle. cbn in Hidle. subst jobs.
  cbn [caches] in *.
  set (c := CacheAPI.get cacheName s) in *.
  assert (Hrun : limit_run fuel cacheName size (mkWorld s net [] tr) =
                 mkWorld
                   (fold_left (fun s key => CacheAPI.update cacheName
                                              (CacheAPI.cache_delete key) s)
                      (firstn (length c - size) (CacheAPI.cache_keys c))
                      (CacheAPI.open cacheName s))
                   net [] tr).
  { unfold limit_run, add_pending, limitCacheSize.
    cbn [caches network pending trace ready app].
    destruct fuel as [|[|fuel]]; [lia | lia |].
    rewrite settle_step. cbn [step_job fst snd ready app].
    rewrite settle_step. cbn [step_job fst snd ready app].
    rewrite get_open. fold c. rewrite !length_cache_keys.
    destruct (size <? length c) eqn:Hover.
    - cbn [ready]. rewrite ready_deletes. apply settle_deletes.
      rewrite length_firstn. lia.
    - apply Nat.ltb_ge in Hover.
      replace (length c - size) with 0 by lia. cbn [firstn fold_left].
      apply settle_idle. reflexivity. }
  rewrite Hrun. cbn [caches pending]. split; [reflexivity|].
  assert (Hfinal : CacheAPI.get cacheName
                     (fold_left (fun s key => CacheAPI.update cacheName
                                                (CacheAPI.cache_delete key) s)
                        (firstn (length c - size) (CacheAPI.cache_keys c))
                        (CacheAPI.open cacheName s))
                   = skipn (length c - size) c).
  { rewrite get_deletes by apply CacheFacts.has_open.
    rewrite get_open. fold c. rewrite deletes_filter.
    apply survivors_are_the_rest; assumption. }
  rewrite Hfinal. split; [reflexivity|].
  rewrite length_skipn. lia.
Qed.

Lemma limitCacheSize_keeps_newest_witness :
  CacheAPI.cache_keys
    (CacheAPI.get DYNAMIC_CACHE
       (caches (limit_run 8 DYNAMIC_CACHE 3 (after_writes 5))))
  = [api 2; api 3; api 4].
Proof.
  assert (Hget : all_GET (CacheAPI.get DYNAMIC_CACHE (caches (after_writes 5)))).
  { unfold all_GET. apply Forall_forall. intros e He. vm_compute in He.
    repeat (destruct He as [<-|He]; [reflexivity|]). destruct He. }
  assert (Hurls : distinct_urls (CacheAPI.get DYNAMIC_CACHE (caches (after_writes 5)))).
  { unfold distinct_urls. vm_compute.
    repeat (constructor; [simpl; intuition discriminate|]). constructor. }
  assert (Hfuel : 2 + (length (CacheAPI.get DYNAMIC_CACHE (caches (after_writes 5))) - 3)
                  <= 8) by (vm_compute; repeat constructor).
  destruct (limitCacheSize_keeps_newest DYNAMIC_CACHE 3 8 (after_writes 5)
              eq_refl Hget Hurls Hfuel) as [_ [Hkept _]].
  rewrite Hkept. reflexivity.
Defined.

Lemma cache_match_delete_other q key c :
  url key <> url q ->
  CacheAPI.cache_match q (CacheAPI.cache_delete key c) = CacheAPI.cache_match q c.
Proof.
  intros Hurl. unfold CacheAPI.cache_delete.
  induction c as [|[k v] c IH]; [reflexivity|]. simpl.
  destruct (CacheAPI.request_matches key k) eqn:Hkk; simpl.
  - assert (CacheAPI.request_matches q k = false) as ->; [|exact IH].
    unfold CacheAPI.request_matches in *.
    apply andb_prop in Hkk. destruct Hkk as [_ Hkk].
    apply String.eqb_eq in Hkk.
    assert (String.eqb (url q) (url k) = false) as ->
      by (apply String.eqb_neq; congruence).
    apply andb_false_r.
  - destruct (CacheAPI.request_matches q k); [reflexivity | exact IH].
Qed.


Lemma storage_match_update_other q key name s :
  url key <> url q ->
  CacheAPI.storage_match q (CacheAPI.update name (CacheAPI.cache_delete key) s) =
  CacheAPI.storage_match q s.
Proof.
  intros Hurl. unfold CacheAPI.update.
  induction s as [|[n c] s IH]; [reflexivity|]. simpl.
  destruct (String.eqb n name); simpl; rewrite IH;
    [rewrite cache_match_delete_other by exact Hurl|]; reflexivity.
Qed.

Lemma storage_match_deletes q name (l : list Request) : forall s,
  (forall key, In key l -> url key <> url q) ->
  CacheAPI.storage_match q
    (fold_left (fun s key => CacheAPI.update name (CacheAPI.cache_delete key) s) l s) =
  CacheAPI.storage_match q s.
Proof.
  induction l as [|k l IH]; intros s Hl; [reflexivity|].
  simpl. rewrite IH by (intros key Hkey; apply Hl; right; exact Hkey).
  apply storage_match_update_other. apply Hl. left. reflexivity.
Qed.

Lemma storage_match_put q r name s :
  method q = "GET" ->
  CacheAPI.storage_match q s = None ->
  CacheAPI.has name s = true ->
  CacheAPI.storage_match q (CacheAPI.update name (CacheAPI.cache_put q r) s) = Some r.
Proof.
  intros Hget. unfold CacheAPI.update, CacheAPI.has.
  induction s as [|[n c] s IH]; intros Hmiss Hhas; [discriminate|].
  simpl in *. destruct (CacheAPI.cache_match q c) eqn:Hc; [discriminate|].
  destruct (String.eqb n name); simpl.
  - rewrite CacheFacts.cache_match_put by exact Hget. reflexivity.
  - rewrite Hc. apply IH; assumption.
Qed.

Lemma storage_match_open q name s :
  CacheAPI.storage_match q (CacheAPI.open name s) = CacheAPI.storage_match q s.
Proof.
  unfold CacheAPI.open. destruct (CacheAPI.has name s); [reflexivity|].
  induction s as [|[n c] s IH]; [reflexivity|].
  simpl. rewrite IH. reflexivity.
Qed.

Lemma storage_miss_get q name s :
  CacheAPI.storage_match q s = None ->
  CacheAPI.cache_match q (CacheAPI.get name s) = None.
Proof.
  induction s as [|[n c] s IH]; intros H; [reflexivity|].
  simpl in *. destruct (CacheAPI.cache_match q c) eqn:Hc; [discriminate|].
  destruct (String.eqb n name); [exact Hc | apply IH; exact H].
Qed.

Lemma cache_miss_urls q c :
  method q = "GET" -> CacheAPI.cache_match q c = None ->
  forall key, In key (CacheAPI.cache_keys c) -> url key <> url q.
Proof.
  intros Hget. unfold CacheAPI.cache_keys.
  induction c as [|[k v] c IH]; intros Hmiss key Hin; [destruct Hin|].
  simpl in *. destruct (CacheAPI.request_matches q k) eqn:Hqk; [discriminate|].
  destruct Hin as [<-|Hin]; [|apply IH; assumption].
  unfold CacheAPI.request_matches in Hqk. rewrite Hget in Hqk. cbn in Hqk.
  apply String.eqb_neq in Hqk. congruence.
Qed.

Lemma in_firstn {A} (x : A) n (l : list A) : In x (firstn n l) -> In x l.
Proof.
  intros H. rewrite <- (firstn_skipn n l). apply in_or_app. left. exact H.
Qed.

(** The whole cache store after a cycle in which the network answered
    200. *)
Lemma dynamic_cycle_200_caches request r w :
  network w request = Some r -> status r = 200%N ->
  quiescent w ->
  length (CacheAPI.get DYNAMIC_CACHE (caches w)) <= S MAX_DYNAMIC_CACHE_SIZE ->
  caches (dynamic_cycle w request) =
    fold_left (fun s key => CacheAPI.update DYNAMIC_CACHE (CacheAPI.cache_delete key) s)
      (firstn (length (CacheAPI.get DYNAMIC_CACHE (caches w)) - MAX_DYNAMIC_CACHE_SIZE)
              (CacheAPI.cache_keys (CacheAPI.get DYNAMIC_CACHE (caches w))))
      (CacheAPI.update DYNAMIC_CACHE (CacheAPI.cache_put request r)
         (CacheAPI.open DYNAMIC_CACHE (caches w))).
Proof.
  intros Hnet Hst Hidle Hlen. unfold dynamic_cycle.
  rewrite (networkFirst_200 _ _ _ Hnet Hst).
  destruct w as [s net jobs tr]. red in Hidle. cbn in Hidle. subst jobs.
  cbn [caches] in Hlen |- *. clear Hnet.
  unfold add_pending, emit, set_caches, limitCacheSize, put_job.
  cbn [caches network pending trace snd ready app].
  change 64 with (S (S (S (S 60)))).
  rewrite settle_step. cbn [step_job fst snd ready app].
  rewrite settle_step. cbn [step_job fst snd ready app].
  rewrite settle_step. cbn [step_job fst snd].
  rewrite open_open, get_open.
  set (c := CacheAPI.get DYNAMIC_CACHE s) in *.
  rewrite !length_cache_keys.
  destruct (MAX_DYNAMIC_CACHE_SIZE <? length c) eqn:Hover.
  - cbn [ready]. rewrite ready_deletes. cbn [app].
    rewrite settle_step. cbn [step_job fst snd ready].
    rewrite app_nil_r. rewrite settle_deletes; [reflexivity|].
    rewrite length_firstn. unfold MAX_DYNAMIC_CACHE_SIZE in *. lia.
  - cbn [ready app].
    rewrite settle_step. cbn [step_job fst snd ready app].
    rewrite settle_idle by reflexivity. cbn [caches].
    apply Nat.ltb_ge in Hover.
    replace (length c - MAX_DYNAMIC_CACHE_SIZE) with 0 by lia. reflexivity.
Qed.

(** X15. Network-first round trip: a GET request that no cache answers
    yet and that the network answers with 200 is returned and, once the
    cycle has finished, persisted; when the network fails afterwards the
    same request is answered with that response, not with a 503. *)
Theorem networkFirst_round_trip
    (request : Request) (r : Response) (w : World)
    (net' : Request -> option Response) :
  quiescent w ->
  length (CacheAPI.get DYNAMIC_CACHE (caches w)) <= S MAX_DYNAMIC_CACHE_SIZE ->
  method request = "GET" ->
  CacheAPI.storage_match request (caches w) = None ->
  network w request = Some r ->
  status r = 200%N ->
  net' request = None ->
  fst (networkFirst request w) = Fulfilled r /\
  CacheAPI.cache_match request
    (CacheAPI.get DYNAMIC_CACHE (caches (dynamic_cycle w request))) = Some r /\
  fst (networkFirst request (set_network net' (dynamic_cycle w request)))
    = Fulfilled r.
Proof.
  intros Hidle Hlen Hget Hmiss Hnet Hst Hoff.
  pose proof (cache_miss_urls request _ Hget
                (storage_miss_get request DYNAMIC_CACHE _ Hmiss)) as Hurls.
  assert (Hold : forall key,
            In key (firstn (length (CacheAPI.get DYNAMIC_CACHE (caches w))
                            - MAX_DYNAMIC_CACHE_SIZE)
                      (CacheAPI.cache_keys (CacheAPI.get DYNAMIC_CACHE (caches w)))) ->
            url key <> url request).
  { intros key Hkey. apply Hurls. eapply in_firstn. exact Hkey. }
  assert (Hstored : CacheAPI.storage_match request (caches (dynamic_cycle w request))
                    = Some r).
  { rewrite (dynamic_cycle_200_caches request r w Hnet Hst Hidle Hlen).
    rewrite storage_match_deletes by exact Hold.
    apply storage_match_put; [exact Hget | | apply CacheFacts.has_open].
    rewrite storage_match_open. exact Hmiss. }
  split; [|split].
  - rewrite (networkFirst_200 _ _ _ Hnet Hst). reflexivity.
  - destruct (dynamic_cycle_200 request r w Hnet Hst Hidle Hlen) as [_ Hc].
    rewrite Hc. unfold evict. rewrite deletes_filter.
    unfold CacheAPI.cache_put. rewrite Hget. cbn [String.eqb Ascii.eqb Bool.eqb andb].
    rewrite filter_app, CacheFacts.cache_match_app.
    assert (Hfront : CacheAPI.cache_match request
                       (filter (survives (firstn
                          (length (CacheAPI.get DYNAMIC_CACHE (caches w))
                           - MAX_DYNAMIC_CACHE_SIZE)
                          (CacheAPI.cache_keys (CacheAPI.get DYNAMIC_CACHE (caches w)))))
                          (CacheAPI.cache_delete request
                             (CacheAPI.get DYNAMIC_CACHE (caches w)))) = None).
    { rewrite <- deletes_filter.
      generalize (CacheAPI.cache_delete request (CacheAPI.get DYNAMIC_CACHE (caches w)))
                 (CacheFacts.cache_match_delete request
                    (CacheAPI.get DYNAMIC_CACHE (caches w))).
      revert Hold.
      generalize (firstn (length (CacheAPI.get DYNAMIC_CACHE (caches w))
                          - MAX_DYNAMIC_CACHE_SIZE)
                    (CacheAPI.cache_keys (CacheAPI.get DYNAMIC_CACHE (caches w)))).
      induction l as [|k l IH]; intros Hl c0 Hc0; [exact Hc0|].
      simpl. apply IH; [intros key Hkey; apply Hl; right; exact Hkey|].
      rewrite cache_match_delete_other; [exact Hc0|]. apply Hl. left. reflexivity. }
    rewrite Hfront. cbn [filter].
    assert (Hnew : survives (firstn
                      (length (CacheAPI.get DYNAMIC_CACHE (caches w))
                       - MAX_DYNAMIC_CACHE_SIZE)
                      (CacheAPI.cache_keys (CacheAPI.get DYNAMIC_CACHE (caches w))))
                      (request, r) = true).
    { unfold survives. apply forallb_forall. intros key Hkey. cbn [fst].
      unfold CacheAPI.request_matches.
      assert (String.eqb (url key) (url request) = false) as ->
        by (apply String.eqb_neq; apply Hold; exact Hkey).
      rewrite andb_false_r. reflexivity. }
    rewrite Hnew. cbn [CacheAPI.cache_match].
    rewrite CacheFacts.request_matches_refl by exact Hget. reflexivity.
  - rewrite networkFirst_cases. cbn [network set_network caches].
    rewrite Hoff, Hstored. reflexivity.
Qed.

Lemma networkFirst_round_trip_witness :
  fst (networkFirst (api 7) (set_network offline (dynamic_cycle (after_writes 3) (api 7))))
  = Fulfilled (mkResponse 200 "OK" (url (api 7))).
Proof.
  assert (Hlen : length (CacheAPI.get DYNAMIC_CACHE (caches (after_writes 3)))
                 <= S MAX_DYNAMIC_CACHE_SIZE) by (vm_compute; repeat constructor).
  exact (proj2 (proj2 (networkFirst_round_trip (api 7)
                         (mkResponse 200 "OK" (url (api 7)))
                         (after_writes 3) offline
                         eq_refl Hlen eq_refl eq_refl eq_refl eq_refl eq_refl))).
Defined.



(** ** Notification clicks *)

Lemma prefix_length (a b : string) :
  prefix a b = true -> String.length a <= String.length b.
Proof.
  revert b. induction a as [|c a IH]; intros b H; [simpl; lia|].
  destruct b as [|c' b]; [discriminate|].
  simpl in H. destruct (ascii_dec c c'); [|discriminate].
  simpl. apply IH in H. lia.
Qed.

Lemma focus_root_client_found clientList client :
  focus_root_client clientList = Some client ->
  In client clientList /\ client_url client = "/" /\ can_focus client = true.
Proof.
  induction clientList as [|c rest IH]; [discriminate|].
  simpl. destruct (String.eqb (client_url c) "/" && can_focus c) eqn:E.
  - intros [= <-]. apply andb_prop in E. destruct E as [Hurl Hfocus].
    apply String.eqb_eq in Hurl. auto.
  - intros H. destruct (IH H) as [Hin Hrest]. auto.
Qed.

(** X17. The click listener focuses a window only when its URL is the
    bare string ['/']. Window clients report absolute URLs, and for those
    the listener never focuses an open window: it opens a new one on
    ['/'] whenever [clients.openWindow] exists. *)
Theorem notification_click_opens_new_window
    (origin : string) (clientList : list WindowClient) (openWindow : bool) :
  1 < String.length origin ->
  (forall client, In client clientList ->
                  prefix origin (client_url client) = true) ->
  onNotificationClick clientList openWindow =
    (if openWindow then Opened "/" else NothingDone) /\
  (forall client, onNotificationClick clientList openWindow <> Focused client).
Proof.
  intros Horigin Habs.
  assert (Hnone : focus_root_client clientList = None).
  { destruct (focus_root_client clientList) as [client|] eqn:E; [|reflexivity].
    apply focus_root_client_found in E. destruct E as [Hin [Hurl _]].
    apply Habs, prefix_length in Hin. rewrite Hurl in Hin. simpl in Hin. lia. }
  unfold onNotificationClick. rewrite Hnone.
  split; [reflexivity|]. intros client. destruct openWindow; discriminate.
Qed.

Lemma notification_click_opens_new_window_witness :
  onNotificationClick
    [mkClient (site ++ "/") true; mkClient (site ++ "/index.html") true] true
  = Opened "/".
Proof.
  apply (notification_click_opens_new_window site
           [mkClient (site ++ "/") true; mkClient (site ++ "/index.html") true] true).
  - vm_compute. repeat constructor.
  - intros client [<-|[<-|[]]]; reflexivity.
Defined.
